(** * The chat agent of [open-interpreter.py]: router, streaming decoder,
      execution adapter and JSON transcript logs

    A shallow embedding of the class [OpenInterpreterChatAgent].

    - Python [str] is a sequence of Unicode code points ([list N]); [bytes]
      is a sequence of bytes.
    - Exceptions are values of [exn]; a method is a computation in the
      monad [M], which threads the log directory and either returns or
      raises.  Only subclasses of [Exception] are modelled.
    - What the agent asks of its environment is an input of the model: the
      clock reading, what [interpreter.chat] does, what the HTTP exchange
      with Ollama delivers.
    - Three builtins of the interpreter are parameters of the agent
      ([str.lower], [str()], the text of an exception); [json.loads],
      [json.dump] with [indent=2, ensure_ascii=False], [bytes.decode] and
      the string methods are written out.
    - The three methods come first, each given what the world delivers
      to it; the object around them (its fields, its HTTP session, the
      chat loop of [interactive_mode], [main]) follows.

    Left out of the model: what [print] writes, but for the texts
    [interactive_mode] itself prints; the request body; what the code
    that Open Interpreter runs for a task does to the files; the
    encoding of text when it is printed or written to a file (every
    string is taken to be encodable as UTF-8); the limits of the
    interpreter and of the disk (recursion depth, digits of an [int],
    free space). *)

From Stdlib Require Import ZArith NArith Lia Bool.
From Stdlib.Strings Require Import String Ascii Byte.
From Stdlib Require Import Decimal DecimalN DecimalFacts.
From stdpp Require Import base option list gmap.

Set Default Proof Using "Type".
Set Warnings "-register-all".
Local Open Scope N_scope.
Local Open Scope list_scope.

(** ** Text *)

Abbreviation str := (list N).
Abbreviation bytes := (list byte).

(** An ASCII literal as a [str]. *)
Definition lit (s : string) : str := map N_of_ascii (list_ascii_of_string s).

(** The same, with every apostrophe standing for a double quote (JSON
    text is full of them). *)
Definition dq (s : string) : str :=
  map (fun c => if c =? 39 then 34 else c) (lit s).

Definition str_eqb (a b : str) : bool := bool_decide (a = b).

(** [s.startswith(p)] *)
Fixpoint startswith (p s : str) : bool :=
  match p, s with
  | [], _ => true
  | _ :: _, [] => false
  | a :: p', b :: s' => (a =? b) && startswith p' s'
  end.

(** [p in s] on strings: [p] occurs at some position of [s]. *)
Fixpoint contains (p s : str) : bool :=
  startswith p s ||
  match s with
  | [] => false
  | _ :: s' => contains p s'
  end.

(** [s.replace(old, new)]: occurrences of [old] are found left to right
    and do not overlap; [skip] counts the characters of an occurrence
    still to be dropped.  (An empty [old] matches before every character
    and at the end.) *)
Fixpoint replace_from (old new : str) (skip : nat) (s : str) : str :=
  match s with
  | [] => match skip, old with O, [] => new | _, _ => [] end
  | c :: s' =>
      match skip with
      | S k => replace_from old new k s'
      | O =>
          match old with
          | [] => new ++ c :: replace_from old new O s'
          | _ :: old' =>
              if startswith old s
              then new ++ replace_from old new (length old') s'
              else c :: replace_from old new O s'
          end
      end
  end.

Definition replace (old new s : str) : str := replace_from old new O s.

(** [str.isspace] of one character (Py_UNICODE_ISSPACE). *)
Definition is_space (c : N) : bool :=
  ((9 <=? c) && (c <=? 13)) || ((28 <=? c) && (c <=? 32))
  || (c =? 133) || (c =? 160) || (c =? 5760)
  || ((8192 <=? c) && (c <=? 8202))
  || (c =? 8232) || (c =? 8233) || (c =? 8239) || (c =? 8287) || (c =? 12288).

Fixpoint lstrip (s : str) : str :=
  match s with
  | c :: s' => if is_space c then lstrip s' else s
  | [] => []
  end.

Definition rstrip (s : str) : str := rev (lstrip (rev s)).

(** [s.strip()] *)
Definition strip (s : str) : str := rstrip (lstrip s).

(** ** [bytes.decode("utf-8")], strict *)

Definition is_cont (b : N) : bool := (128 <=? b) && (b <=? 191).

(** Decodes the bytes, one code point after the other; [None] where
    Python raises [UnicodeDecodeError] (stray or missing continuation
    bytes, overlong forms, surrogates, code points above U+10FFFF). *)
Fixpoint utf8_decode (bs : list N) : option str :=
  match bs with
  | [] => Some []
  | b0 :: r0 =>
      if b0 <? 128 then cons b0 <$> utf8_decode r0
      else if (194 <=? b0) && (b0 <=? 223) then
        match r0 with
        | b1 :: r1 =>
            if is_cont b1
            then cons ((b0 - 192) * 64 + (b1 - 128)) <$> utf8_decode r1
            else None
        | _ => None
        end
      else if (224 <=? b0) && (b0 <=? 239) then
        match r0 with
        | b1 :: b2 :: r2 =>
            let lo := if b0 =? 224 then 160 else 128 in
            let hi := if b0 =? 237 then 159 else 191 in
            if (lo <=? b1) && (b1 <=? hi) && is_cont b2
            then cons ((b0 - 224) * 4096 + (b1 - 128) * 64 + (b2 - 128))
                   <$> utf8_decode r2
            else None
        | _ => None
        end
      else if (240 <=? b0) && (b0 <=? 244) then
        match r0 with
        | b1 :: b2 :: b3 :: r3 =>
            let lo := if b0 =? 240 then 144 else 128 in
            let hi := if b0 =? 244 then 143 else 191 in
            if (lo <=? b1) && (b1 <=? hi) && is_cont b2 && is_cont b3
            then cons ((b0 - 240) * 262144 + (b1 - 128) * 4096
                       + (b2 - 128) * 64 + (b3 - 128))
                   <$> utf8_decode r3
            else None
        | _ => None
        end
      else None
  end.

Definition decode_utf8 (line : bytes) : option str :=
  utf8_decode (map Byte.to_N line).

(** The bytes of an ASCII literal, apostrophes as double quotes. *)
Definition bq (s : string) : bytes :=
  map (fun a => byte_of_ascii (if Ascii.eqb a "'" then ascii_of_N 34 else a))
      (list_ascii_of_string s).

(** ** Python values

    The values [json.loads] builds, which are also what the log files hold
    and what Open Interpreter's message list is made of.  A [dict] keeps
    its insertion order; its keys are strings.

    A [float] is kept as the decimal it was read from (sign, integer
    part, fraction digits, exponent): its truth value is that of the
    double Python rounds it to, and no arithmetic is done on it. *)

Inductive pyfloat : Type :=
| FNaN
| FInf (neg : bool)
| FDec (neg : bool) (ip : N) (frac : uint) (exp : Z).

Inductive pyobj : Type :=
| PyNone
| PyBool (b : bool)
| PyInt (z : Z)
| PyFloat (f : pyfloat)
| PyStr (s : str)
| PyList (l : list pyobj)
| PyDict (d : list (str * pyobj)).

Section pyobj_induction.
Variable P : pyobj -> Prop.
Hypothesis HNone : P PyNone.
Hypothesis HBool : forall b, P (PyBool b).
Hypothesis HInt : forall z, P (PyInt z).
Hypothesis HFloat : forall f, P (PyFloat f).
Hypothesis HStr : forall s, P (PyStr s).
Hypothesis HList : forall l, Forall P l -> P (PyList l).
Hypothesis HDict : forall d, Forall (fun kv => P (snd kv)) d -> P (PyDict d).

Fixpoint pyobj_nested_ind (v : pyobj) : P v :=
  match v with
  | PyNone => HNone
  | PyBool b => HBool b
  | PyInt z => HInt z
  | PyFloat f => HFloat f
  | PyStr s => HStr s
  | PyList l =>
      HList l ((fix go (l : list pyobj) : Forall P l :=
                  match l with
                  | [] => List.Forall_nil P
                  | x :: l' => List.Forall_cons _ x l' (pyobj_nested_ind x) (go l')
                  end) l)
  | PyDict d =>
      HDict d ((fix go (d : list (str * pyobj)) : Forall (fun kv => P (snd kv)) d :=
                  match d with
                  | [] => List.Forall_nil _
                  | kv :: d' =>
                      List.Forall_cons _ kv d'
                        (pyobj_nested_ind (snd kv)) (go d')
                  end) d)
  end.
End pyobj_induction.

(** [type(v).__name__] *)
Definition type_name (v : pyobj) : str :=
  match v with
  | PyNone => lit "NoneType"
  | PyBool _ => lit "bool"
  | PyInt _ => lit "int"
  | PyFloat _ => lit "float"
  | PyStr _ => lit "str"
  | PyList _ => lit "list"
  | PyDict _ => lit "dict"
  end.

(** Whether the decimal rounds to a zero double: it is zero, or at most
    half the least subnormal, 2^-1075 (round-half-even). *)
Definition float_is_zero (f : pyfloat) : bool :=
  match f with
  | FNaN | FInf _ => false
  | FDec _ ip frac exp =>
      let k := nb_digits frac in
      let m := Z.of_N (ip * 10 ^ N.of_nat k + N.of_uint frac) in
      let e := (exp - Z.of_nat k)%Z in
      (m =? 0)%Z || ((e <? 0)%Z && (m * 2 ^ 1075 <=? 10 ^ (- e))%Z)
  end.

(** [bool(v)], as [if v:] and [v or w] test it. *)
Definition truthy (v : pyobj) : bool :=
  match v with
  | PyNone => false
  | PyBool b => b
  | PyInt z => negb (z =? 0)%Z
  | PyFloat f => negb (float_is_zero f)
  | PyStr s => match s with [] => false | _ => true end
  | PyList l => match l with [] => false | _ => true end
  | PyDict d => match d with [] => false | _ => true end
  end.

(** [a or b] *)
Definition py_or (a b : pyobj) : pyobj := if truthy a then a else b.

(** [d.get(k, default)] *)
Fixpoint dict_get (k : str) (d : list (str * pyobj)) (default : pyobj) : pyobj :=
  match d with
  | [] => default
  | (k', v) :: d' => if str_eqb k k' then v else dict_get k d' default
  end.

(** [d[k] = v]: a key already there keeps its place. *)
Fixpoint dict_set (k : str) (v : pyobj) (d : list (str * pyobj))
  : list (str * pyobj) :=
  match d with
  | [] => [(k, v)]
  | (k', v') :: d' =>
      if str_eqb k k' then (k', v) :: d' else (k', v') :: dict_set k v d'
  end.

(** [dict(pairs)] *)
Definition dict_of_pairs (kvs : list (str * pyobj)) : list (str * pyobj) :=
  fold_left (fun d kv => dict_set (fst kv) (snd kv) d) kvs [].

(** No key occurs twice in a dict, at any depth: what every Python value
    satisfies and the list representation alone does not enforce. *)
Fixpoint well_formed (v : pyobj) : bool :=
  match v with
  | PyList l => forallb well_formed l
  | PyDict d =>
      bool_decide (NoDup (map fst d))
      && forallb (fun kv => well_formed (snd kv)) d
  | _ => true
  end.

(** ** [json.loads]

    The scanner of the [json] module with its default settings
    ([strict=True], no hooks), over the text still to be read.  [None]
    is [JSONDecodeError].  The interpreter's own limits (recursion depth,
    digits of an [int]) are not modelled. *)

Definition is_digit (c : N) : bool := (48 <=? c) && (c <=? 57).

Definition push_digit (c : N) (u : uint) : uint :=
  match c - 48 with
  | 0 => D0 u | 1 => D1 u | 2 => D2 u | 3 => D3 u | 4 => D4 u
  | 5 => D5 u | 6 => D6 u | 7 => D7 u | 8 => D8 u | _ => D9 u
  end.

(** The longest run of digits at the head of [s], and what follows. *)
Fixpoint scan_digits (s : str) : uint * str :=
  match s with
  | c :: r =>
      if is_digit c
      then let (u, r') := scan_digits r in (push_digit c u, r')
      else (Nil, s)
  | [] => (Nil, [])
  end.

Fixpoint digit_chars (u : uint) : str :=
  match u with
  | Nil => []
  | D0 u => 48 :: digit_chars u | D1 u => 49 :: digit_chars u
  | D2 u => 50 :: digit_chars u | D3 u => 51 :: digit_chars u
  | D4 u => 52 :: digit_chars u | D5 u => 53 :: digit_chars u
  | D6 u => 54 :: digit_chars u | D7 u => 55 :: digit_chars u
  | D8 u => 56 :: digit_chars u | D9 u => 57 :: digit_chars u
  end.

Definition starts_with_digit (s : str) : bool :=
  match s with c :: _ => is_digit c | [] => false end.

(** [([eE][-+]?\d+)?] *)
Definition scan_exponent (s : str) : option Z * str :=
  match s with
  | e :: r =>
      if (e =? 101) || (e =? 69) then
        let (neg, r1) :=
          match r with
          | sg :: r' =>
              if sg =? 45 then (true, r')
              else if sg =? 43 then (false, r') else (false, r)
          | [] => (false, r)
          end in
        if starts_with_digit r1 then
          let (u, r2) := scan_digits r1 in
          (Some (if neg then - Z.of_N (N.of_uint u) else Z.of_N (N.of_uint u))%Z, r2)
        else (None, s)
      else (None, s)
  | [] => (None, s)
  end.

(** [NUMBER_RE]: an optional minus sign, then [0] or a digit run that
    does not start with [0]; an optional fraction [\.\d+]; an optional
    exponent.  An [int] when neither fraction nor exponent matched, a
    [float] otherwise. *)
Definition match_number (s : str) : option (pyobj * str) :=
  let (neg, s1) :=
    match s with
    | c :: r => if c =? 45 then (true, r) else (false, s)
    | [] => (false, s)
    end in
  match s1 with
  | c :: r =>
      if is_digit c then
        let (ip, s2) := if c =? 48 then (D0 Nil, r) else scan_digits s1 in
        let (frac, s3) :=
          match s2 with
          | d :: r2 =>
              if (d =? 46) && starts_with_digit r2 then scan_digits r2
              else (Nil, s2)
          | [] => (Nil, s2)
          end in
        let (ex, s4) := scan_exponent s3 in
        match frac, ex with
        | Nil, None =>
            Some (PyInt (if neg then - Z.of_N (N.of_uint ip)
                         else Z.of_N (N.of_uint ip))%Z, s4)
        | _, _ =>
            Some (PyFloat (FDec neg (N.of_uint ip) frac (default 0%Z ex)), s4)
        end
      else None
  | [] => None
  end.

Definition hex_val (c : N) : option N :=
  if is_digit c then Some (c - 48)
  else if (97 <=? c) && (c <=? 102) then Some (c - 87)
  else if (65 <=? c) && (c <=? 70) then Some (c - 55)
  else None.

Definition hex4 (a b c d : N) : option N :=
  x ← hex_val a; y ← hex_val b; z ← hex_val c; w ← hex_val d;
  Some (((x * 16 + y) * 16 + z) * 16 + w).

(** The character after a backslash, [u] apart. *)
Definition unescape (c : N) : option N :=
  if (c =? 34) || (c =? 92) || (c =? 47) then Some c
  else if c =? 98 then Some 8
  else if c =? 102 then Some 12
  else if c =? 110 then Some 10
  else if c =? 114 then Some 13
  else if c =? 116 then Some 9
  else None.

Definition is_high_surrogate (c : N) : bool := (55296 <=? c) && (c <=? 56319).
Definition is_low_surrogate (c : N) : bool := (56320 <=? c) && (c <=? 57343).
Definition join_surrogates (hi lo : N) : N :=
  65536 + (hi - 55296) * 1024 + (lo - 56320).

Definition emit (c : N) (k : option (str * str)) : option (str * str) :=
  '(s, r) ← k; Some (c :: s, r).

(** [scanstring], from just after the opening quote: the string and what
    follows its closing quote. *)
Fixpoint scanstring (s : str) : option (str * str) :=
  match s with
  | [] => None
  | c :: r =>
      if c =? 34 then Some ([], r)
      else if c =? 92 then
        match r with
        | [] => None
        | e :: r1 =>
            if e =? 117 then
              match r1 with
              | h1 :: h2 :: h3 :: h4 :: r2 =>
                  match hex4 h1 h2 h3 h4 with
                  | None => None
                  | Some cp =>
                      if is_high_surrogate cp then
                        match r2 with
                        | b :: u :: l1 :: l2 :: l3 :: l4 :: r3 =>
                            match (if (b =? 92) && (u =? 117)
                                   then hex4 l1 l2 l3 l4 else None) with
                            | Some lo =>
                                if is_low_surrogate lo
                                then emit (join_surrogates cp lo) (scanstring r3)
                                else emit cp (scanstring r2)
                            | None => emit cp (scanstring r2)
                            end
                        | _ => emit cp (scanstring r2)
                        end
                      else emit cp (scanstring r2)
                  end
              | _ => None
              end
            else
              match unescape e with
              | Some ch => emit ch (scanstring r1)
              | None => None
              end
        end
      else if c <? 32 then None
      else emit c (scanstring r)
  end.

(** JSON whitespace: space, tab, line feed, carriage return. *)
Definition is_json_ws (c : N) : bool :=
  (c =? 32) || (c =? 9) || (c =? 10) || (c =? 13).

Fixpoint skip_ws (s : str) : str :=
  match s with
  | c :: r => if is_json_ws c then skip_ws r else s
  | [] => []
  end.

(** [scan_once] with [JSONArray] ([scan_items]) and [JSONObject]
    ([scan_pairs]); [fuel] bounds the calls, and the length of the text
    is always enough. *)
Fixpoint scan_once (fuel : nat) (s : str) : option (pyobj * str) :=
  match fuel with
  | O => None
  | S n =>
      match s with
      | [] => None
      | c :: r =>
          if c =? 34 then '(k, r') ← scanstring r; Some (PyStr k, r')
          else if c =? 123 then
            match skip_ws r with
            | c' :: r' =>
                if c' =? 125 then Some (PyDict [], r')
                else '(kvs, r'') ← scan_pairs n (c' :: r');
                     Some (PyDict (dict_of_pairs kvs), r'')
            | [] => None
            end
          else if c =? 91 then
            match skip_ws r with
            | c' :: r' =>
                if c' =? 93 then Some (PyList [], r')
                else '(vs, r'') ← scan_items n (c' :: r'); Some (PyList vs, r'')
            | [] => None
            end
          else if startswith (lit "null") s then Some (PyNone, drop 4 s)
          else if startswith (lit "true") s then Some (PyBool true, drop 4 s)
          else if startswith (lit "false") s then Some (PyBool false, drop 5 s)
          else
            match match_number s with
            | Some res => Some res
            | None =>
                if startswith (lit "NaN") s then Some (PyFloat FNaN, drop 3 s)
                else if startswith (lit "Infinity") s
                then Some (PyFloat (FInf false), drop 8 s)
                else if startswith (lit "-Infinity") s
                then Some (PyFloat (FInf true), drop 9 s)
                else None
            end
      end
  end
with scan_items (fuel : nat) (s : str) : option (list pyobj * str) :=
  match fuel with
  | O => None
  | S n =>
      '(v, r) ← scan_once n s;
      match skip_ws r with
      | c :: r1 =>
          if c =? 93 then Some ([v], r1)
          else if c =? 44 then
            '(vs, r2) ← scan_items n (skip_ws r1); Some (v :: vs, r2)
          else None
      | [] => None
      end
  end
with scan_pairs (fuel : nat) (s : str) : option (list (str * pyobj) * str) :=
  match fuel with
  | O => None
  | S n =>
      match s with
      | q :: r =>
          if q =? 34 then
            '(k, r1) ← scanstring r;
            match skip_ws r1 with
            | col :: r2 =>
                if col =? 58 then
                  '(v, r3) ← scan_once n (skip_ws r2);
                  match skip_ws r3 with
                  | c :: r4 =>
                      if c =? 125 then Some ([(k, v)], r4)
                      else if c =? 44 then
                        '(kvs, r5) ← scan_pairs n (skip_ws r4);
                        Some ((k, v) :: kvs, r5)
                      else None
                  | [] => None
                  end
                else None
            | [] => None
            end
          else None
      | [] => None
      end
  end.

(** [json.loads(s)]: one value, whitespace around it, nothing else. *)
Definition json_loads (s : str) : option pyobj :=
  '(v, r) ← scan_once (S (length s)) (skip_ws s);
  match skip_ws r with
  | [] => Some v
  | _ :: _ => None
  end.

(** ** [json.dumps(v, indent=2, ensure_ascii=False)]

    The text [json.dump] writes.  A [float] is written as the decimal it
    is kept as, with its exponent (Python writes [repr] of the double,
    another spelling of the same number). *)

Definition hex_digit (n : N) : N := if n <? 10 then 48 + n else 87 + n.

(** [ESCAPE_DCT]: quote, backslash and the characters below U+0020. *)
Definition encode_char (c : N) : str :=
  if c =? 34 then [92; 34]
  else if c =? 92 then [92; 92]
  else if c =? 8 then [92; 98]
  else if c =? 12 then [92; 102]
  else if c =? 10 then [92; 110]
  else if c =? 13 then [92; 114]
  else if c =? 9 then [92; 116]
  else if c <? 32 then [92; 117; 48; 48; hex_digit (c / 16); hex_digit (c mod 16)]
  else [c].

Definition encode_basestring (s : str) : str :=
  34 :: flat_map encode_char s ++ [34].

Definition dump_N (n : N) : str := digit_chars (N.to_uint n).

Definition dump_Z (z : Z) : str :=
  if (z <? 0)%Z then 45 :: dump_N (Z.abs_N z) else dump_N (Z.abs_N z).

Definition dump_float (f : pyfloat) : str :=
  match f with
  | FNaN => lit "NaN"
  | FInf false => lit "Infinity"
  | FInf true => lit "-Infinity"
  | FDec neg ip frac ex =>
      (if neg then [45] else []) ++ dump_N ip
      ++ match frac with Nil => [] | _ => 46 :: digit_chars frac end
      ++ 101 :: dump_Z ex
  end.

(** A line break and the indentation of nesting depth [level]. *)
Definition newline_indent (level : nat) : str :=
  10 :: repeat 32 (2 * level).

(** The separator of the items of an array or object at depth [level]. *)
Definition item_separator (level : nat) : str := 44 :: newline_indent level.

(** [sep.join(parts)] *)
Fixpoint join (sep : str) (parts : list str) : str :=
  match parts with
  | [] => []
  | [p] => p
  | p :: ps => p ++ sep ++ join sep ps
  end.

Fixpoint dump (level : nat) (v : pyobj) : str :=
  match v with
  | PyNone => lit "null"
  | PyBool true => lit "true"
  | PyBool false => lit "false"
  | PyInt z => dump_Z z
  | PyFloat f => dump_float f
  | PyStr s => encode_basestring s
  | PyList [] => lit "[]"
  | PyList l =>
      91 :: newline_indent (S level)
      ++ join (item_separator (S level)) (map (dump (S level)) l)
      ++ newline_indent level ++ [93]
  | PyDict [] => lit "{}"
  | PyDict d =>
      123 :: newline_indent (S level)
      ++ join (item_separator (S level))
           (map (fun kv => encode_basestring (fst kv) ++ 58 :: 32
                           :: dump (S level) (snd kv)) d)
      ++ newline_indent level ++ [125]
  end.

(** One [key: value] of an object at depth [level]. *)
Definition pair_text (level : nat) (kv : str * pyobj) : str :=
  encode_basestring (fst kv) ++ 58 :: 32 :: dump level (snd kv).

Definition json_dumps (v : pyobj) : str := dump 0 v.

(** What may follow a number without changing how it reads. *)
Definition number_end (rest : str) : bool :=
  match rest with
  | [] => true
  | c :: _ => negb (is_digit c || (c =? 46) || (c =? 101) || (c =? 69))
  end.

(** A value's text starts with a character that is not white space, and
    neither closes an array or object nor separates items. *)
Definition value_start (c : N) : bool :=
  negb (is_json_ws c) && negb (c =? 93) && negb (c =? 125) && negb (c =? 44).

(** [v] is read back from its text, whatever the depth it was written
    at and whatever follows it. *)
Definition reads_back (v : pyobj) : Prop :=
  forall (level : nat) (rest : str) (fuel : nat),
    (length (dump level v) <= fuel)%nat -> number_end rest = true ->
    scan_once fuel (dump level v ++ rest) = Some (v, rest).

(** ** Exceptions, the log directory, and the monad of the methods *)

Inductive exn : Type :=
| JSONDecodeError (doc : str)
| UnicodeDecodeError (data : bytes)
| AttributeError (tyname attr : str)
| TypeError (operand : str)
| FileNotFoundError (path : str)
| PermissionError (path : str)
| ExternalError (msg : str).
(** [ExternalError] is whatever the environment raises: [aiohttp] on the
    exchange with Ollama, Open Interpreter inside [interpreter.chat]. *)

Definition is_JSONDecodeError (e : exn) : bool :=
  match e with JSONDecodeError _ => true | _ => false end.

(** A file of the log directory: its text, and whether the process may
    open it (to read it or to write it). *)
Record file : Type := File { contents : str; accessible : bool }.

(** The files by path. *)
Abbreviation fs := (gmap (list N) file).

Inductive result (A : Type) : Type :=
| Return (a : A)
| Raise (e : exn).
Arguments Return {A} a.
Arguments Raise {A} e.

Definition M (A : Type) : Type := fs -> result A * fs.

Definition ret {A} (a : A) : M A := fun σ => (Return a, σ).
Definition raise {A} (e : exn) : M A := fun σ => (Raise e, σ).
Definition bind {A B} (m : M A) (k : A -> M B) : M B :=
  fun σ =>
    match m σ with
    | (Return a, σ') => k a σ'
    | (Raise e, σ') => (Raise e, σ')
    end.

(** [try: m  except Exception as e: h e]; what [m] wrote before it raised
    stays written. *)
Definition try_except {A} (m : M A) (h : exn -> M A) : M A :=
  fun σ =>
    match m σ with
    | (Return a, σ') => (Return a, σ')
    | (Raise e, σ') => h e σ'
    end.

Notation "x <- m ;; k" := (bind m (fun x => k))
  (at level 100, m at next level, k at level 200, right associativity).

(** [os.path.exists(path)] *)
Definition path_exists (path : str) : M bool :=
  fun σ => (Return (bool_decide (is_Some (σ !! path))), σ).

(** [with open(path, "r", encoding="utf-8") as f: f.read()] *)
Definition read_text (path : str) : M str :=
  fun σ =>
    match σ !! path with
    | None => (Raise (FileNotFoundError path), σ)
    | Some f =>
        if accessible f then (Return (contents f), σ)
        else (Raise (PermissionError path), σ)
    end.

(** [with open(path, "w", encoding="utf-8") as f: f.write(text)]: the
    file is created, or its text replaced.  (The directory of the path
    is taken to exist: the logs of the agent are files of [LOG_DIR],
    which the module creates when it is loaded.) *)
Definition write_text (path text : str) : M unit :=
  fun σ =>
    match σ !! path with
    | Some f =>
        if accessible f then (Return tt, <[path := File text true]> σ)
        else (Raise (PermissionError path), σ)
    | None => (Return tt, <[path := File text true]> σ)
    end.

(** [json.load(f)], on the text read *)
Definition json_load (text : str) : M pyobj :=
  match json_loads text with
  | Some v => ret v
  | None => raise (JSONDecodeError text)
  end.

(** [existing_data.append(data)]: only a list has the method. *)
Definition list_append (existing_data data : pyobj) : M pyobj :=
  match existing_data with
  | PyList l => ret (PyList (l ++ [data]))
  | v => raise (AttributeError (type_name v) (lit "append"))
  end.

(** Unfolds the operations of the monad. *)
Ltac unfold_monad :=
  unfold bind, try_except, path_exists, read_text, write_text,
    json_load, list_append, ret, raise in *.

(** ** [append_to_json_log] *)

Definition LOG_DIR : str := lit "logs".

(** [os.path.join(a, b)] (POSIX): an absolute [b] discards [a]. *)
Definition path_join (a b : str) : str :=
  if startswith [47] b then b
  else match last a with
       | None => b
       | Some c => if c =? 47 then a ++ b else a ++ 47 :: b
       end.

Definition append_to_json_log (filename : str) (data : pyobj) : M unit :=
  let filepath := path_join LOG_DIR filename in
  present <- path_exists filepath ;;
  if negb present then
    write_text filepath (json_dumps (PyList [data]))
  else (
    text <- read_text filepath ;;
    existing_data <- json_load text ;;
    existing_data <- list_append existing_data data ;;
    write_text filepath (json_dumps existing_data)).

(** ** The agent *)

(** What one call asks of the world outside the agent. *)

(** [session.post(...)] and the body of the response: the request may
    fail; otherwise the response has a status (which the agent never
    looks at) and delivers its lines, until the body ends or reading it
    fails. *)
Inductive http_outcome : Type :=
| PostFailed (e : exn)
| Response (status : N) (frames : list bytes) (broken : option exn).

(** [interpreter.chat(task, display=False)]: raises, or returns a value. *)
Inductive chat_outcome : Type :=
| ChatRaised (e : exn)
| ChatReturned (value : pyobj).

Record world : Type := World {
  now : str;              (* datetime.now().strftime("%Y-%m-%d %H:%M:%S") *)
  http : http_outcome;
  chat : chat_outcome
}.

Inductive route : Type := Execution | Generation.

Definition CLEAN_LOG : str := lit "ollama_response_clean_log.json".
Definition RAW_LOG : str := lit "ollama_response_raw_log.json".
Definition INTERPRETER_LOG : str := lit "open_interpreter_log.json".

Definition FALLBACK : str := lit "I understand. How can I help you?".
Definition TASK_COMPLETED : str := lit "Task completed.".

Definition keywords : list str :=
  [lit "file"; lit "folder"; lit "create"; lit "write"; lit "save";
   lit "list"; lit "delete"].

(** A transcript entry, as the three dict literals of the source build it. *)
Definition log_entry (timestamp user : str) (response : pyobj) : pyobj :=
  PyDict [(lit "timestamp", PyStr timestamp); (lit "user", PyStr user);
          (lit "response", response)].

(** [chunk.get("response", default)], the default being the empty
    string, on what [json.loads] returned. *)
Definition get_response (chunk : pyobj) : M pyobj :=
  match chunk with
  | PyDict d => ret (dict_get (lit "response") d (PyStr []))
  | v => raise (AttributeError (type_name v) (lit "get"))
  end.

(** [complete_response += token] *)
Definition str_iadd (complete_response : str) (token : pyobj) : M str :=
  match token with
  | PyStr t => ret (complete_response ++ t)
  | v => raise (TypeError (type_name v))
  end.

(** The body of [async for line in resp.content] (lines 94-104), from
    the text accumulated so far to the text after this line.  The inner
    handler catches [json.JSONDecodeError] alone.  ([full_raw_output] is
    assigned and never read, and the [print] calls write to the
    terminal: neither is part of the model.) *)
Definition decode_frame (complete_response : str) (line : bytes) : M str :=
  match line with
  | [] => ret complete_response
  | _ :: _ =>
      match decode_utf8 line with
      | None => raise (UnicodeDecodeError line)
      | Some text =>
          let data := strip text in
          try_except
            (chunk <- json_load data ;;
             token <- get_response chunk ;;
             if truthy token then str_iadd complete_response token
             else ret complete_response)
            (fun e => if is_JSONDecodeError e then ret complete_response
                      else raise e)
      end
  end.

Fixpoint decode_frames (frames : list bytes) (complete_response : str) : M str :=
  match frames with
  | [] => ret complete_response
  | line :: rest =>
      complete_response <- decode_frame complete_response line ;;
      decode_frames rest complete_response
  end.

(** Lines 92-104: the request and the whole loop. *)
Definition read_response (h : http_outcome) : M str :=
  match h with
  | PostFailed e => raise e
  | Response _ frames broken =>
      complete_response <- decode_frames frames [] ;;
      match broken with
      | Some e => raise e
      | None => ret complete_response
      end
  end.

(** Line 107. *)
Definition filter_response (complete_response : str) : str :=
  strip (replace (lit "</think>") [] (replace (lit "<think>") [] complete_response)).

(** [filtered_response or "I understand. How can I help you?"] *)
Definition or_fallback (filtered_response : str) : str :=
  match filtered_response with
  | [] => FALLBACK
  | _ :: _ => filtered_response
  end.

(** Lines 135-142. *)
Definition normalize_result (py_str : pyobj -> str) (result : pyobj) : pyobj :=
  match result with
  | PyList (x :: l) =>
      match List.last l x with
      | PyDict d =>
          py_or (py_or (dict_get (lit "content") d PyNone)
                       (dict_get (lit "output") d PyNone))
                (PyStr TASK_COMPLETED)
      | last => PyStr (py_str last)
      end
  | _ => PyStr TASK_COMPLETED
  end.

(** Lines 107-124: filter, log both variants, return. *)
Definition log_response (timestamp message complete_response : str) : M str :=
  let filtered_response := filter_response complete_response in
  let clean_data := log_entry timestamp message (PyStr filtered_response) in
  let raw_data := log_entry timestamp message (PyStr (strip complete_response)) in
  _ <- append_to_json_log CLEAN_LOG clean_data ;;
  _ <- append_to_json_log RAW_LOG raw_data ;;
  ret (or_fallback filtered_response).

Section Agent.

(** [str.lower], [str(v)] and [str(e)] of the interpreter. *)
Variable lower : str -> str.
Variable py_str : pyobj -> str.
Variable exn_str : exn -> str.

Definition stream_ollama_response (w : world) (message : str) : M str :=
  let timestamp := now w in
  try_except
    (complete_response <- read_response (http w) ;;
     log_response timestamp message complete_response)
    (fun e => ret (lit "Error connecting to Ollama: " ++ exn_str e)).

Definition execute_with_interpreter (w : world) (task : str) : M pyobj :=
  try_except
    (result <- match chat w with
               | ChatRaised e => raise e
               | ChatReturned v => ret v
               end ;;
     let timestamp := now w in
     let response := normalize_result py_str result in
     let log_data := log_entry timestamp task response in
     _ <- append_to_json_log INTERPRETER_LOG log_data ;;
     ret response)
    (fun e => ret (PyStr (lit "[Error] Interpreter failed: " ++ exn_str e))).

Definition is_file_task (msg : str) : bool :=
  existsb (fun kw => contains kw (lower msg)) keywords.

(** The test of [process_message], as the branch it selects. *)
Definition routing_decision (message : str) (force_interpreter : bool) : route :=
  if force_interpreter || is_file_task message then Execution else Generation.

Definition process_message (w : world) (message : str) (force_interpreter : bool)
  : M pyobj :=
  match routing_decision message force_interpreter with
  | Execution => execute_with_interpreter w message
  | Generation =>
      response <- stream_ollama_response w message ;; ret (PyStr response)
  end.

End Agent.

(** ** Reading a log back, and appending several entries *)

(** Lines 60-61 on their own: open the log and deserialize it. *)
Definition read_log (filename : str) : M pyobj :=
  text <- read_text (path_join LOG_DIR filename) ;; json_load text.


(** The log [filename] holds the entries [old]: its file is a readable
    JSON list of them, or does not exist and [old] is empty. *)
Definition holds_entries (σ : fs) (filename : str) (old : list pyobj) : Prop :=
  match σ !! path_join LOG_DIR filename with
  | None => old = []
  | Some f => accessible f = true /\ json_loads (contents f) = Some (PyList old)
  end.

(** ** The statements of the specification, in its own words *)






(** [k in d] *)
Definition has_key (k : str) (d : list (str * pyobj)) : bool :=
  existsb (fun kv => str_eqb k (fst kv)) d.

(** The normalization of section 4.3, as the specification words it:
    the last record's ["content"] if it has one, else its ["output"] if
    it has one, else the record stringified. *)
Definition specified_output (py_str : pyobj -> str) (result : pyobj) : pyobj :=
  match result with
  | PyList (x :: l) =>
      match List.last l x with
      | PyDict d =>
          if has_key (lit "content") d then dict_get (lit "content") d PyNone
          else if has_key (lit "output") d then dict_get (lit "output") d PyNone
          else PyStr (py_str (PyDict d))
      | last => PyStr (py_str last)
      end
  | _ => PyStr TASK_COMPLETED
  end.

(** [s] holds [p] as a substring. *)
Definition occurs_in (p s : str) : Prop := exists l r, s = l ++ p ++ r.

(** ** An interpreter to run the model with

    The three parameters of the agent, for the examples: [str.lower] on
    ASCII letters (other characters are left alone); [str()] of the
    values whose text needs no [repr] (any other value gets its type
    between angle brackets, which no example looks at); the messages of
    the exceptions, without the reason and position a decoding error
    reports. *)

Definition lower_ascii (s : str) : str :=
  map (fun c => if (65 <=? c) && (c <=? 90) then c + 32 else c) s.

Definition str_of_value (v : pyobj) : str :=
  match v with
  | PyNone => lit "None"
  | PyBool true => lit "True"
  | PyBool false => lit "False"
  | PyInt z => dump_Z z
  | PyStr s => s
  | PyList [] => lit "[]"
  | PyDict [] => lit "{}"
  | v => 60 :: type_name v ++ [62]
  end.

Definition str_of_exn (e : exn) : str :=
  match e with
  | JSONDecodeError _ => lit "Expecting value"
  | UnicodeDecodeError _ => lit "'utf-8' codec can't decode byte"
  | AttributeError ty attr =>
      39 :: ty ++ lit "' object has no attribute '" ++ attr ++ [39]
  | TypeError ty =>
      lit "can only concatenate str (not " ++ 34 :: ty ++ 34 :: lit ") to str"
  | FileNotFoundError path =>
      lit "[Errno 2] No such file or directory: '" ++ path ++ [39]
  | PermissionError path =>
      lit "[Errno 13] Permission denied: '" ++ path ++ [39]
  | ExternalError msg => msg
  end.

(** ** The agent object: its fields, its HTTP session, the chat loop *)

(** An [aiohttp.ClientSession], as far as the agent can tell: open, or
    closed.  (The object is truthy in either state, so [if self.session]
    tests whether there is one.) *)
Inductive session_state : Type := SessionOpen | SessionClosed.

(** The attributes of an [OpenInterpreterChatAgent]. *)
Record agent : Type := Agent {
  ollama_url : pyobj;
  ollama_model : pyobj;
  session : option session_state
}.

(** [__init__], given the two module constants ([os.getenv] returns a
    string or [None]): an argument that is [None] or empty gives way to
    the constant.  (What [setup_interpreter] assigns to the global
    [interpreter] configures Open Interpreter, whose behaviour the model
    takes from the world outside.) *)
Definition __init__ (OLLAMA_BASE_URL OLLAMA_MODEL : pyobj)
    (ollama_url ollama_model : pyobj) : agent :=
  Agent (py_or ollama_url OLLAMA_BASE_URL) (py_or ollama_model OLLAMA_MODEL) None.

Definition create_session (self : agent) : agent :=
  match session self with
  | None => Agent (ollama_url self) (ollama_model self) (Some SessionOpen)
  | Some _ => self
  end.

Definition close_session (self : agent) : agent :=
  match session self with
  | Some _ => Agent (ollama_url self) (ollama_model self) (Some SessionClosed)
  | None => self
  end.

(** [self.session.post(...)]: a closed session refuses the request
    ([RuntimeError]), and [None] has no such method; on an open session
    the exchange is what the world delivers. *)
Definition session_post (s : option session_state) (h : http_outcome) : http_outcome :=
  match s with
  | Some SessionOpen => h
  | Some SessionClosed => PostFailed (ExternalError (lit "Session is closed"))
  | None => PostFailed (AttributeError (lit "NoneType") (lit "post"))
  end.

(** A line typed at the prompt, as the chain of tests of
    [interactive_mode] reads it (lines 170-181). *)
Inductive command : Type :=
| CmdQuit
| CmdHelp
| CmdModel
| CmdInterpreter (task : str)
| CmdMessage (msg : str)
| CmdNothing.

Definition read_command (line : str) : command :=
  let msg := strip line in
  if existsb (str_eqb msg) [lit "/quit"; lit "exit"] then CmdQuit
  else if str_eqb msg (lit "/help") then CmdHelp
  else if str_eqb msg (lit "/model") then CmdModel
  else if startswith (lit "/oi ") msg then CmdInterpreter (strip (drop 4 msg))
  else match msg with
       | [] => CmdNothing
       | _ :: _ => CmdMessage msg
       end.

(** The agent, what [interactive_mode] has printed so far (one text per
    call of [print] of its own, without the newline [print] adds; the
    prompt of [input] and what the methods it calls print are not
    recorded), and the files. *)
Record chat_state : Type := ChatState {
  agent_of : agent;
  printed : list str;
  files : fs
}.

Definition print (text : str) (st : chat_state) : chat_state :=
  ChatState (agent_of st) (printed st ++ [text]) (files st).

(** How the [while True] loop is left: by [break], or by an exception. *)
Inductive loop_exit : Type :=
| Break
| Raised (e : exn).

Definition BANNER : str := 10 :: lit "=== Chat Agent (Ollama + Open Interpreter) ===".
Definition COMMANDS : str := lit "Commands: /oi <msg>, /model, /help, /quit".
Definition HELP : str :=
  lit "/oi <msg>: Force interpreter" ++ 10 :: lit "/model: Show model info"
  ++ 10 :: lit "/quit: Exit".

Section Chat.

Variable lower : str -> str.
Variable py_str : pyobj -> str.
Variable exn_str : exn -> str.

(** The whole of [stream_ollama_response]: line 67, then the request on
    the session the agent holds. *)
Definition stream_ollama_response_of (self : agent) (w : world) (message : str)
  : agent * M str :=
  let self := create_session self in
  (self,
   stream_ollama_response exn_str
     (World (now w) (session_post (session self) (http w)) (chat w)) message).

Definition process_message_of (self : agent) (w : world) (message : str)
    (force_interpreter : bool) : agent * M pyobj :=
  match routing_decision lower message force_interpreter with
  | Execution => (self, execute_with_interpreter py_str exn_str w message)
  | Generation =>
      let '(self, m) := stream_ollama_response_of self w message in
      (self, response <- m ;; ret (PyStr response))
  end.

Definition model_info (self : agent) : str :=
  lit "Using model: " ++ py_str (ollama_model self) ++ lit " at "
  ++ py_str (ollama_url self).

Definition answer (result : pyobj) : str :=
  10 :: lit "Assistant: " ++ py_str result.

(** The [while True] loop (lines 169-183).  [turns] are the lines
    [input] returns, each with what the world outside would do during
    that turn; when they are used up, [input] raises [at_end]. *)
Fixpoint chat_loop (turns : list (str * world)) (at_end : exn) (st : chat_state)
  : loop_exit * chat_state :=
  match turns with
  | [] => (Raised at_end, st)
  | (line, w) :: rest =>
      match read_command line with
      | CmdQuit => (Break, st)
      | CmdHelp => chat_loop rest at_end (print HELP st)
      | CmdModel => chat_loop rest at_end (print (model_info (agent_of st)) st)
      | CmdInterpreter task =>
          match execute_with_interpreter py_str exn_str w task (files st) with
          | (Return result, σ) =>
              chat_loop rest at_end
                (print (answer result) (ChatState (agent_of st) (printed st) σ))
          | (Raise e, σ) => (Raised e, ChatState (agent_of st) (printed st) σ)
          end
      | CmdMessage msg =>
          let '(self, m) := process_message_of (agent_of st) w msg false in
          match m (files st) with
          | (Return response, σ) =>
              chat_loop rest at_end
                (print (answer response) (ChatState self (printed st) σ))
          | (Raise e, σ) => (Raised e, ChatState self (printed st) σ)
          end
      | CmdNothing => chat_loop rest at_end st
      end
  end.

Definition interactive_mode (turns : list (str * world)) (at_end : exn)
    (self : agent) (σ : fs) : chat_state :=
  let st := print COMMANDS (print BANNER (ChatState self [] σ)) in
  let '(how, st) := chat_loop turns at_end st in
  let st :=
    match how with
    | Break => st
    | Raised e => print (lit "[Error] Chat loop failed: " ++ exn_str e) st
    end in
  ChatState (close_session (agent_of st)) (printed st) (files st).

(** [main]: a [ChatAgent] built with no argument, and its [chat_loop]. *)
Definition main (OLLAMA_BASE_URL OLLAMA_MODEL : pyobj)
    (turns : list (str * world)) (at_end : exn) (σ : fs) : chat_state :=
  interactive_mode turns at_end
    (__init__ OLLAMA_BASE_URL OLLAMA_MODEL PyNone PyNone) σ.

End Chat.

(** ** Notions the statements below use *)

(** An ASCII white-space byte: tab to carriage return, the four
    separators, the space. *)
Definition is_space_byte (b : byte) : bool :=
  (Byte.to_N b <? 128) && is_space (Byte.to_N b).

(** The three log files of the agent. *)
Definition log_paths : list str :=
  [path_join LOG_DIR CLEAN_LOG; path_join LOG_DIR RAW_LOG;
   path_join LOG_DIR INTERPRETER_LOG].

(** A typed line that ends the chat; one that is handed to a backend. *)
Definition is_quit (line : str) : bool :=
  match read_command line with CmdQuit => true | _ => false end.

Definition is_request (line : str) : bool :=
  match read_command line with
  | CmdInterpreter _ | CmdMessage _ => true
  | _ => false
  end.

(** The lines typed before the first one that ends the chat. *)
Fixpoint lines_read (lines : list str) : list str :=
  match lines with
  | [] => []
  | line :: rest => if is_quit line then [] else line :: lines_read rest
  end.

(** A printed text that is an answer to a request; one that reports the
    end of the loop by an exception. *)
Definition is_answer (text : str) : bool :=
  startswith (10 :: lit "Assistant: ") text.

Definition is_loop_failure (text : str) : bool :=
  startswith (lit "[Error] Chat loop failed: ") text.

(** Neither the first nor the last character is white space. *)
Definition trimmed (s : str) : Prop :=
  match s with [] => True | c :: _ => is_space c = false end
  /\ match rev s with [] => True | c :: _ => is_space c = false end.

(** A typed line that the router hands to the streaming decoder. *)
Definition goes_to_decoder (lower : str -> str) (line : str) : bool :=
  match read_command line with
  | CmdMessage msg =>
      match routing_decision lower msg false with
      | Generation => true
      | Execution => false
      end
  | _ => false
  end.

(** What [interpreter.chat] returns is a Python value. *)
Definition well_formed_reply (w : world) : Prop :=
  match chat w with
  | ChatReturned v => well_formed v = true
  | ChatRaised _ => True
  end.

(** What a turn may do to the state of the chat: files other than the
    logs stay as they are, and every file does when the line is no
    request; the logs keep their entries and gain at most one each; what
    is printed is an answer exactly for a request, and never the report
    of a failed loop; the agent opens a session when the line goes to
    the streaming decoder. *)
Definition turn_effect (lower : str -> str) (line : str) (w : world)
    (st st' : chat_state) : Prop :=
  (forall path, path ∉ log_paths -> files st' !! path = files st !! path)
  /\ (is_request line = false -> files st' = files st)
  /\ (well_formed_reply w ->
      forall log old, holds_entries (files st) log old ->
        exists added,
          holds_entries (files st') log (old ++ added)
          /\ (length added <= if is_request line then 1 else 0)%nat)
  /\ (exists out,
        printed st' = printed st ++ out
        /\ length (List.filter is_answer out) = (if is_request line then 1 else 0)%nat
        /\ List.filter is_loop_failure out = [])
  /\ agent_of st'
     = if goes_to_decoder lower line then create_session (agent_of st)
       else agent_of st.

(** * Facts about text *)

Lemma startswith_spec (p s : str) :
  startswith p s = true <-> exists r, s = p ++ r.
Proof.
  revert s; induction p as [|a p IH]; intros s; simpl.
  - split; eauto.
  - destruct s as [|b s]; simpl.
    + split; [done | intros [r Hr]; discriminate].
    + rewrite andb_true_iff, N.eqb_eq, IH. split.
      * intros [-> [r ->]]; eauto.
      * intros [r Hr]; injection Hr as -> ->; eauto.
Qed.

Lemma contains_spec (p s : str) : contains p s = true <-> occurs_in p s.
Proof.
  unfold occurs_in. induction s as [|c s IH].
  - simpl. rewrite orb_false_r, startswith_spec. split.
    + intros [r Hr]. exists [], r. done.
    + intros (l & r & H). symmetry in H.
      apply app_eq_nil in H as [-> H]. apply app_eq_nil in H as [-> ->].
      exists []. done.
  - cbn [contains]. rewrite orb_true_iff, IH, startswith_spec. split.
    + intros [[r Hr] | (l & r & Hr)].
      * exists [], r. done.
      * exists (c :: l), r. rewrite Hr. done.
    + intros (l & r & Hr). destruct l as [|c' l].
      * left. exists r. done.
      * right. injection Hr as -> ->. eauto.
Qed.

Lemma lstrip_head (s : str) :
  match lstrip s with [] => True | c :: _ => is_space c = false end.
Proof.
  induction s as [|c s IH]; simpl; [done |].
  destruct (is_space c) eqn:Hc; [done | by rewrite Hc].
Qed.

Lemma rstrip_snoc (s : str) (c : N) :
  rstrip (s ++ [c]) = if is_space c then rstrip s else s ++ [c].
Proof.
  unfold rstrip. rewrite rev_app_distr. simpl.
  destruct (is_space c); [done |].
  change (c :: rev s) with (rev [c] ++ rev s).
  by rewrite <- rev_app_distr, rev_involutive.
Qed.

Lemma rstrip_prefix (s : str) : exists u, s = rstrip s ++ u.
Proof.
  induction s as [|c s [u Hu]] using rev_ind; [by exists [] |].
  rewrite rstrip_snoc. destruct (is_space c).
  - exists (u ++ [c]). rewrite app_assoc, <- Hu. done.
  - exists []. by rewrite app_nil_r.
Qed.

(** The stripped text neither starts nor ends with white space. *)
Lemma strip_trimmed (s : str) :
  match strip s with [] => True | c :: _ => is_space c = false end
  /\ match rev (strip s) with [] => True | c :: _ => is_space c = false end.
Proof.
  unfold strip. split.
  - pose proof (lstrip_head s) as Hh.
    destruct (rstrip_prefix (lstrip s)) as [u Hu].
    destruct (rstrip (lstrip s)) as [|c t]; [done |].
    rewrite Hu in Hh. done.
  - unfold rstrip. rewrite rev_involutive. apply lstrip_head.
Qed.
(** * [json.loads] undoes [json.dumps] *)

(** ** Digits *)

Lemma scan_digits_chars (u : uint) (rest : str) :
  starts_with_digit rest = false ->
  scan_digits (digit_chars u ++ rest) = (u, rest).
Proof.
  intros Hrest. induction u; cbn [digit_chars app];
    try (cbn [scan_digits]; rewrite IHu; reflexivity).
  destruct rest as [|c r]; [done |].
  cbn [scan_digits]. cbn [starts_with_digit] in Hrest. by rewrite Hrest.
Qed.

Lemma digit_chars_head (u : uint) (rest : str) :
  u <> Nil -> starts_with_digit (digit_chars u ++ rest) = true.
Proof. by destruct u. Qed.

Lemma nzhead_not_D0 (u v : uint) : nzhead u <> D0 v.
Proof. induction u; simpl; congruence. Qed.

Lemma to_uint_nonnil (n : N) : N.to_uint n <> Nil.
Proof.
  destruct n as [|p]; [discriminate |]. apply DecimalPos.Unsigned.to_uint_nonnil.
Qed.

(** The decimal digits of a number have no leading zero, the number 0
    apart. *)
Lemma to_uint_no_leading_zero (n : N) (u : uint) :
  N.to_uint n = D0 u -> n = 0.
Proof.
  intros Hn.
  assert (Hnorm : unorm (N.to_uint n) = N.to_uint n).
  { rewrite <- DecimalN.Unsigned.to_of. by rewrite DecimalN.Unsigned.of_to. }
  rewrite Hn in Hnorm. rewrite unorm_D0 in Hnorm. unfold unorm in Hnorm.
  destruct (nzhead u) eqn:Hz; try discriminate.
  - injection Hnorm as <-. rewrite <- (DecimalN.Unsigned.of_to n), Hn. done.
  - by apply nzhead_not_D0 in Hz.
Qed.

Lemma dump_N_nonempty (n : N) (rest : str) :
  starts_with_digit (dump_N n ++ rest) = true.
Proof. apply digit_chars_head, to_uint_nonnil. Qed.

Lemma number_end_no_digit (rest : str) :
  number_end rest = true -> starts_with_digit rest = false.
Proof.
  destruct rest as [|c r]; [done |]. simpl.
  destruct (is_digit c); [done | done].
Qed.

Lemma scan_exponent_none (rest : str) :
  number_end rest = true -> scan_exponent rest = (None, rest).
Proof.
  destruct rest as [|c r]; [done |]. cbn [number_end scan_exponent].
  intros H. apply negb_true_iff in H.
  apply orb_false_iff in H as [H H69]. apply orb_false_iff in H as [_ H101].
  by rewrite H101, H69.
Qed.

Lemma scan_exponent_dump (ex : Z) (rest : str) :
  starts_with_digit rest = false ->
  scan_exponent (101 :: dump_Z ex ++ rest) = (Some ex, rest).
Proof.
  intros Hrest. unfold dump_Z. cbn [scan_exponent]. 
  change ((101 =? 101) || (101 =? 69)) with true. cbv iota.
  destruct (ex <? 0)%Z eqn:Hneg.
  - cbn [app]. change (45 =? 45) with true. cbv iota.
    rewrite dump_N_nonempty. unfold dump_N.
    rewrite scan_digits_chars by done.
    rewrite DecimalN.Unsigned.of_to. f_equal. f_equal. lia.
  - pose proof (dump_N_nonempty (Z.abs_N ex) rest) as Hd.
    destruct (dump_N (Z.abs_N ex) ++ rest) as [|c r] eqn:Htxt; [done |].
    cbn [starts_with_digit] in Hd.
    assert (H45 : (c =? 45) = false).
    { unfold is_digit in Hd. apply N.eqb_neq. intros ->. done. }
    assert (H43 : (c =? 43) = false).
    { unfold is_digit in Hd. apply N.eqb_neq. intros ->. done. }
    rewrite H45, H43. cbn [starts_with_digit]. rewrite Hd.
    rewrite <- Htxt. unfold dump_N. rewrite scan_digits_chars by done.
    rewrite DecimalN.Unsigned.of_to. f_equal. f_equal. lia.
Qed.

(** ** Numbers *)

Lemma scan_integer_part (n : N) (tail : str) :
  starts_with_digit tail = false ->
  exists c r, dump_N n ++ tail = c :: r /\ is_digit c = true /\ c <> 45 /\
    (if c =? 48 then (D0 Nil, r) else scan_digits (c :: r)) = (N.to_uint n, tail).
Proof.
  intros Htail. unfold dump_N.
  pose proof (scan_digits_chars (N.to_uint n) tail Htail) as Hscan.
  pose proof (to_uint_no_leading_zero n) as Hz.
  pose proof (to_uint_nonnil n) as Hnil.
  destruct (N.to_uint n) as [|u|u|u|u|u|u|u|u|u|u] eqn:Hn; [done | ..];
    cbn [digit_chars app] in *;
    (eexists _, _; split; [reflexivity |]; split; [reflexivity |];
     split; [discriminate |]);
    try exact Hscan.
  change (48 =? 48) with true. cbv iota.
  assert (n = 0) as -> by eauto. injection Hn as <-. done.
Qed.

Lemma match_number_int (z : Z) (rest : str) :
  number_end rest = true ->
  match_number (dump_Z z ++ rest) = Some (PyInt z, rest).
Proof.
  intros Hend. pose proof (number_end_no_digit _ Hend) as Hdig.
  destruct (scan_integer_part (Z.abs_N z) rest Hdig)
    as (c & r & Htxt & Hc & Hc45 & Hip).
  assert (Htail : match rest with
                  | d :: r2 =>
                      if (d =? 46) && starts_with_digit r2 then scan_digits r2
                      else (Nil, rest)
                  | [] => (Nil, rest)
                  end = (Nil, rest)).
  { destruct rest as [|d r2]; [done |]. cbn [number_end] in Hend.
    apply negb_true_iff in Hend.
    apply orb_false_iff in Hend as [Hend _].
    apply orb_false_iff in Hend as [Hend _].
    apply orb_false_iff in Hend as [_ H46]. by rewrite H46. }
  unfold match_number, dump_Z. destruct (z <? 0)%Z eqn:Hneg.
  - cbn [app]. change (45 =? 45) with true. cbv iota.
    rewrite Htxt, Hc, Hip, Htail, scan_exponent_none by done.
    rewrite DecimalN.Unsigned.of_to. do 2 f_equal. f_equal. lia.
  - rewrite Htxt. apply N.eqb_neq in Hc45. rewrite Hc45.
    rewrite Hc, Hip, Htail, scan_exponent_none by done.
    rewrite DecimalN.Unsigned.of_to. do 2 f_equal. f_equal. lia.
Qed.

Lemma match_number_float (neg : bool) (ip : N) (frac : uint) (ex : Z) (rest : str) :
  starts_with_digit rest = false ->
  match_number (dump_float (FDec neg ip frac ex) ++ rest)
  = Some (PyFloat (FDec neg ip frac ex), rest).
Proof.
  intros Hdig.
  set (tail := (match frac with Nil => [] | _ => 46 :: digit_chars frac end
                ++ 101 :: dump_Z ex) ++ rest).
  assert (Htail0 : starts_with_digit tail = false).
  { unfold tail. by destruct frac. }
  destruct (scan_integer_part ip tail Htail0) as (c & r & Htxt & Hc & Hc45 & Hip).
  assert (Hfrac : match tail with
                  | d :: r2 =>
                      if (d =? 46) && starts_with_digit r2 then scan_digits r2
                      else (Nil, tail)
                  | [] => (Nil, tail)
                  end = (frac, 101 :: dump_Z ex ++ rest)).
  { unfold tail. destruct frac eqn:Hf; [done | ..];
      rewrite <- Hf; rewrite <- !app_assoc; cbn [app];
      change (46 =? 46) with true; cbn [andb];
      (rewrite digit_chars_head by (rewrite Hf; discriminate));
      (rewrite scan_digits_chars by done); reflexivity. }
  assert (Htext : dump_float (FDec neg ip frac ex) ++ rest
                  = (if neg then [45] else []) ++ dump_N ip ++ tail).
  { unfold tail. cbn [dump_float]. by rewrite <- !app_assoc. }
  rewrite Htext. unfold match_number. destruct neg.
  - cbn [app]. change (45 =? 45) with true. cbv iota.
    rewrite Htxt, Hc, Hip, Hfrac, scan_exponent_dump by done.
    rewrite DecimalN.Unsigned.of_to. by destruct frac.
  - cbn [app]. rewrite Htxt. apply N.eqb_neq in Hc45. rewrite Hc45.
    rewrite Hc, Hip, Hfrac, scan_exponent_dump by done.
    rewrite DecimalN.Unsigned.of_to. by destruct frac.
Qed.

(** ** Strings *)

Lemma scanstring_encode_char (c : N) (t : str) :
  scanstring (encode_char c ++ t) = emit c (scanstring t).
Proof.
  destruct (c <? 32) eqn:Hlow.
  - apply N.ltb_lt in Hlow.
    assert (Hall : forall n : nat, (n < 32)%nat ->
      scanstring (encode_char (N.of_nat n) ++ t) = emit (N.of_nat n) (scanstring t)).
    { intros n Hn. do 32 (destruct n as [|n]; [reflexivity |]). lia. }
    rewrite <- (N2Nat.id c). apply Hall. lia.
  - unfold encode_char. rewrite Hlow.
    destruct (N.eqb_spec c 34) as [-> | H34]; [reflexivity |].
    destruct (N.eqb_spec c 92) as [-> | H92]; [reflexivity |].
    apply N.ltb_ge in Hlow.
    destruct (N.eqb_spec c 8) as [-> | _]; [lia |].
    destruct (N.eqb_spec c 12) as [-> | _]; [lia |].
    destruct (N.eqb_spec c 10) as [-> | _]; [lia |].
    destruct (N.eqb_spec c 13) as [-> | _]; [lia |].
    destruct (N.eqb_spec c 9) as [-> | _]; [lia |].
    cbn [app scanstring]. apply N.eqb_neq in H34, H92.
    rewrite H34, H92. apply N.ltb_ge in Hlow. by rewrite Hlow.
Qed.

Lemma scanstring_encode (s rest : str) :
  scanstring (flat_map encode_char s ++ 34 :: rest) = Some (s, rest).
Proof.
  induction s as [|c s IH]; [reflexivity |].
  cbn [flat_map]. rewrite <- app_assoc, scanstring_encode_char, IH. done.
Qed.

Lemma scan_once_str (n : nat) (s rest : str) :
  scan_once (S n) (encode_basestring s ++ rest) = Some (PyStr s, rest).
Proof.
  unfold encode_basestring. cbn [app scan_once].
  change (34 =? 34) with true. cbv iota.
  rewrite <- app_assoc. cbn [app]. rewrite scanstring_encode. done.
Qed.

(** ** Values *)

Lemma skip_ws_spaces (k : nat) (t : str) : skip_ws (repeat 32 k ++ t) = skip_ws t.
Proof. induction k as [|k IH]; [done |]. exact IH. Qed.

Lemma skip_ws_newline_indent (k : nat) (t : str) :
  skip_ws (newline_indent k ++ t) = skip_ws t.
Proof. unfold newline_indent. cbn [app skip_ws]. apply skip_ws_spaces. Qed.

Lemma skip_ws_head (c : N) (t : str) :
  is_json_ws c = false -> skip_ws (c :: t) = c :: t.
Proof. intros H. cbn [skip_ws]. by rewrite H. Qed.

Lemma join_cons (sep p : str) (ps : list str) :
  ps <> [] -> join sep (p :: ps) = p ++ sep ++ join sep ps.
Proof. by destruct ps. Qed.

Lemma dump_N_head (n : N) : exists c r, dump_N n = c :: r /\ is_digit c = true.
Proof.
  unfold dump_N. pose proof (to_uint_nonnil n).
  destruct (N.to_uint n); [done | ..]; cbn [digit_chars]; eauto.
Qed.

Lemma is_digit_value_start (c : N) : is_digit c = true -> value_start c = true.
Proof.
  unfold is_digit, value_start, is_json_ws. intros H.
  apply andb_true_iff in H as [H1 H2]. apply N.leb_le in H1, H2.
  repeat match goal with
         | |- context [?a =? ?b] =>
             destruct (N.eqb_spec a b); [lia |]
         end. done.
Qed.

Lemma dump_head (level : nat) (v : pyobj) :
  exists c r, dump level v = c :: r /\ value_start c = true.
Proof.
  destruct v as [|[]|z|f|s|l|d].
  - by eexists _, _.
  - by eexists _, _.
  - by eexists _, _.
  - cbn [dump]. unfold dump_Z. destruct (dump_N_head (Z.abs_N z)) as (c & r & -> & Hc).
    destruct (z <? 0)%Z; eexists _, _; split; try reflexivity; try done.
    by apply is_digit_value_start.
  - cbn [dump]. destruct f as [|[]|neg ip frac ex]; try by eexists _, _.
    cbn [dump_float]. destruct (dump_N_head ip) as (c & r & -> & Hc).
    destruct neg; eexists _, _; split; try reflexivity; try done.
    by apply is_digit_value_start.
  - by eexists _, _.
  - destruct l; by eexists _, _.
  - destruct d; by eexists _, _.
Qed.

Lemma value_start_not_ws (c : N) : value_start c = true -> is_json_ws c = false.
Proof.
  unfold value_start. intros H. destruct (is_json_ws c); [done | done].
Qed.

Lemma skip_ws_dump (level : nat) (v : pyobj) (t : str) :
  skip_ws (dump level v ++ t) = dump level v ++ t.
Proof.
  destruct (dump_head level v) as (c & r & -> & Hc).
  apply skip_ws_head, value_start_not_ws, Hc.
Qed.

Lemma dump_length_pos (level : nat) (v : pyobj) : (1 <= length (dump level v))%nat.
Proof. destruct (dump_head level v) as (c & r & -> & _). simpl. lia. Qed.

(** A text that starts like a number is read by [match_number]. *)
Lemma scan_once_number (n : nat) (c : N) (r : str) (res : pyobj * str) :
  is_digit c = true \/ c = 45 ->
  match_number (c :: r) = Some res ->
  scan_once (S n) (c :: r) = Some res.
Proof.
  intros Hc Hm. cbn [scan_once]. rewrite Hm.
  assert (Hne : forall k, (k < 45 \/ 57 < k) -> (c =? k) = false).
  { intros k Hk. apply N.eqb_neq. destruct Hc as [Hc | ->]; [| lia].
    unfold is_digit in Hc. apply andb_true_iff in Hc as [H1 H2].
    apply N.leb_le in H1, H2. lia. }
  rewrite !Hne by lia.
  assert (Hne' : forall k, (k < 45 \/ 57 < k) -> (k =? c) = false).
  { intros k Hk. rewrite N.eqb_sym. by apply Hne. }
  cbn. rewrite !Hne' by lia. done.
Qed.

Lemma dict_set_fresh (k : str) (v : pyobj) (d : list (str * pyobj)) :
  k ∉ map fst d -> dict_set k v d = d ++ [(k, v)].
Proof.
  induction d as [|[k' v'] d IH]; intros Hk; [done |].
  cbn [map fst] in Hk. apply not_elem_of_cons in Hk as [Hne Hk].
  cbn [dict_set]. unfold str_eqb. rewrite bool_decide_eq_false_2 by done.
  cbn [app]. f_equal. by apply IH.
Qed.

Lemma dict_of_pairs_nodup (d : list (str * pyobj)) :
  NoDup (map fst d) -> dict_of_pairs d = d.
Proof.
  unfold dict_of_pairs.
  assert (H : forall acc : list (str * pyobj),
    NoDup (map fst (acc ++ d)) ->
    fold_left (fun d kv => dict_set (fst kv) (snd kv) d) d acc = acc ++ d).
  { induction d as [|[k v] d IH]; intros acc Hnd.
    - by rewrite app_nil_r.
    - cbn [fold_left fst snd]. rewrite dict_set_fresh.
      + rewrite IH; rewrite <- app_assoc; done.
      + rewrite map_app in Hnd. apply NoDup_app in Hnd as (_ & Hdis & _).
        intros Hin. apply (Hdis k Hin). cbn [map fst]. apply list_elem_of_here. }
  intros Hnd. by apply (H []).
Qed.

Lemma scan_items_dump (level k : nat) (l : list pyobj) :
  Forall reads_back l -> l <> [] ->
  forall (rest : str) (fuel : nat),
    (length (join (item_separator level) (map (dump level) l)) < fuel)%nat ->
    scan_items fuel (join (item_separator level) (map (dump level) l)
                     ++ newline_indent k ++ 93 :: rest)
    = Some (l, rest).
Proof.
  unfold item_separator.
  induction 1 as [|x l Hx Hl IH]; intros Hne rest fuel Hfuel; [done |].
  destruct fuel as [|m]; [lia |]. cbn [scan_items].
  destruct l as [|y ys].
  - cbn [map join] in *. rewrite Hx by (done || lia). cbn [mbind option_bind].
    rewrite skip_ws_newline_indent, skip_ws_head by done.
    change (93 =? 93) with true. done.
  - cbn [map] in Hfuel |- *.
    rewrite (join_cons _ (dump level x)) in Hfuel |- * by done.
    rewrite <- !app_assoc. rewrite length_app in Hfuel.
    rewrite Hx by (done || lia). cbn [mbind option_bind].
    cbn [app]. rewrite skip_ws_head by done.
    change (44 =? 93) with false. change (44 =? 44) with true. cbv iota.
    rewrite <- ?app_assoc, skip_ws_newline_indent.
    change (dump level y :: map (dump level) ys)
      with (map (dump level) (y :: ys)) in Hfuel |- *.
    assert (Hskip : forall t, skip_ws (join (44 :: newline_indent level)
                      (map (dump level) (y :: ys)) ++ t)
                    = join (44 :: newline_indent level)
                        (map (dump level) (y :: ys)) ++ t).
    { intros t. cbn [map]. destruct ys as [|z zs].
      - cbn [map join]. apply skip_ws_dump.
      - rewrite join_cons by done. rewrite <- !app_assoc. apply skip_ws_dump. }
    rewrite Hskip. rewrite IH; [done | done |].
    rewrite length_app in Hfuel. cbn [length] in Hfuel.
    pose proof (dump_length_pos level x). lia.
Qed.

Lemma scan_pairs_dump (level k : nat) (d : list (str * pyobj)) :
  Forall (fun kv => reads_back (snd kv)) d -> d <> [] ->
  forall (rest : str) (fuel : nat),
    (length (join (item_separator level) (map (pair_text level) d)) < fuel)%nat ->
    scan_pairs fuel (join (item_separator level) (map (pair_text level) d)
                     ++ newline_indent k ++ 125 :: rest)
    = Some (d, rest).
Proof.
  unfold item_separator.
  induction 1 as [|[key x] d Hx Hd IH]; intros Hne rest fuel Hfuel; [done |].
  destruct fuel as [|m]; [lia |]. cbn [snd] in Hx.
  assert (Hpair : forall t, pair_text level (key, x) ++ t
    = 34 :: flat_map encode_char key ++ 34 :: 58 :: 32 :: dump level x ++ t).
  { intros t. unfold pair_text, encode_basestring. cbn [fst snd app].
    rewrite <- !app_assoc. done. }
  assert (Hlen : (length (dump level x) + 4 <= length (pair_text level (key, x)))%nat).
  { unfold pair_text, encode_basestring. cbn [fst snd].
    rewrite length_app. cbn [length]. rewrite length_app. cbn [length]. lia. }
  destruct d as [|y ys].
  - cbn [map join] in *. rewrite Hpair. cbn [scan_pairs].
    change (34 =? 34) with true. cbv iota.
    rewrite scanstring_encode. cbn [mbind option_bind].
    rewrite skip_ws_head by done. change (58 =? 58) with true. cbv iota.
    change (skip_ws (32 :: ?t)) with (skip_ws t).
    rewrite skip_ws_dump. rewrite Hx by (done || lia).
    cbn [mbind option_bind].
    rewrite skip_ws_newline_indent, skip_ws_head by done.
    change (125 =? 125) with true. done.
  - cbn [map] in Hfuel |- *.
    rewrite (join_cons _ (pair_text level (key, x))) in Hfuel |- * by done.
    rewrite <- !app_assoc. rewrite length_app in Hfuel. rewrite Hpair. cbn [scan_pairs].
    change (34 =? 34) with true. cbv iota.
    rewrite scanstring_encode. cbn [mbind option_bind].
    rewrite skip_ws_head by done. change (58 =? 58) with true. cbv iota.
    change (skip_ws (32 :: ?t)) with (skip_ws t).
    rewrite skip_ws_dump. rewrite Hx by (done || lia).
    cbn [mbind option_bind].
    cbn [app]. rewrite skip_ws_head by done.
    change (44 =? 125) with false. change (44 =? 44) with true. cbv iota.
    rewrite <- ?app_assoc, skip_ws_newline_indent.
    change (pair_text level y :: map (pair_text level) ys)
      with (map (pair_text level) (y :: ys)) in Hfuel |- *.
    assert (Hskip : forall t, skip_ws (join (44 :: newline_indent level)
                      (map (pair_text level) (y :: ys)) ++ t)
                    = join (44 :: newline_indent level)
                        (map (pair_text level) (y :: ys)) ++ t).
    { intros t. cbn [map]. destruct ys as [|z zs].
      - cbn [map join]. done.
      - rewrite join_cons by done. done. }
    rewrite Hskip. rewrite IH; [done | done |].
    rewrite length_app in Hfuel. cbn [length] in Hfuel. lia.
Qed.

Lemma well_formed_reads_back (v : pyobj) : well_formed v = true -> reads_back v.
Proof.
  induction v as [|b|z|f|s|l IH|d IH] using pyobj_nested_ind;
    intros Hwf level rest fuel Hfuel Hend;
    (destruct fuel as [|n];
     [exfalso; revert Hfuel;
      match goal with
      | |- (length (dump _ ?v) <= 0)%nat -> _ =>
          pose proof (dump_length_pos level v)
      end; lia |]).
  - reflexivity.
  - destruct b; reflexivity.
  - cbn [dump].
    destruct (dump_head level (PyInt z)) as (c & r & Hc & _). cbn [dump] in Hc.
    pose proof (match_number_int z rest Hend) as Hm. rewrite Hc in *.
    cbn [app] in *. apply scan_once_number; [| done].
    clear -Hc. unfold dump_Z in Hc.
    destruct (dump_N_head (Z.abs_N z)) as (c' & r' & Hd & Hc').
    rewrite Hd in Hc. destruct (z <? 0)%Z; injection Hc as <- _; auto.
  - destruct f as [|[]|neg ip frac ex]; try reflexivity.
    cbn [dump].
    destruct (dump_head level (PyFloat (FDec neg ip frac ex))) as (c & r & Hc & _).
    cbn [dump] in Hc.
    pose proof (match_number_float neg ip frac ex rest
                  (number_end_no_digit _ Hend)) as Hm. rewrite Hc in *.
    cbn [app] in *. apply scan_once_number; [| done].
    clear -Hc. cbn [dump_float] in Hc.
    destruct (dump_N_head ip) as (c' & r' & Hd & Hc').
    rewrite Hd in Hc. destruct neg; injection Hc as <- _; auto.
  - apply scan_once_str.
  - destruct l as [|x xs]; [reflexivity |].
    cbn [well_formed] in Hwf.
    assert (Hall : Forall reads_back (x :: xs)).
    { apply Forall_forall. intros y Hy. rewrite Forall_forall in IH.
      apply IH; [done |]. rewrite forallb_forall in Hwf. apply Hwf.
      by apply list_elem_of_In. }
    change (dump level (PyList (x :: xs))) with
      (91 :: newline_indent (S level)
       ++ join (item_separator (S level)) (map (dump (S level)) (x :: xs))
       ++ newline_indent level ++ [93]) in *.
    cbn [app scan_once]. change (91 =? 34) with false.
    change (91 =? 123) with false. change (91 =? 91) with true. cbv iota.
    rewrite <- !app_assoc. rewrite skip_ws_newline_indent.
    assert (Hhead : exists c r,
      join (item_separator (S level)) (map (dump (S level)) (x :: xs))
      = c :: r /\ value_start c = true).
    { destruct (dump_head (S level) x) as (c & r & Hc & Hs).
      cbn [map]. destruct xs.
      - cbn [map join]. eauto.
      - rewrite join_cons by done. rewrite Hc. cbn [app]. eauto. }
    destruct Hhead as (c & r & Hj & Hs).
    pose proof (scan_items_dump (S level) level (x :: xs) Hall ltac:(done)
                  rest n) as Hitems.
    rewrite Hj in *. cbn [app] in *.
    rewrite skip_ws_head by (by apply value_start_not_ws).
    assert (H93 : (c =? 93) = false).
    { unfold value_start in Hs. destruct (c =? 93); [| done].
      by rewrite andb_false_r in Hs. }
    rewrite H93. rewrite Hitems; [done |].
    clear -Hfuel. unfold newline_indent in Hfuel.
    repeat (rewrite length_app in Hfuel || cbn [app length] in Hfuel).
    cbn [length]. lia.
  - destruct d as [|kv d']; [reflexivity |].
    cbn [well_formed] in Hwf. apply andb_true_iff in Hwf as [Hnd Hwf].
    apply bool_decide_eq_true in Hnd.
    assert (Hall : Forall (fun kv => reads_back (snd kv)) (kv :: d')).
    { apply Forall_forall. intros y Hy. rewrite Forall_forall in IH.
      apply IH; [done |]. rewrite forallb_forall in Hwf. apply Hwf.
      by apply list_elem_of_In. }
    change (dump level (PyDict (kv :: d'))) with
      (123 :: newline_indent (S level)
       ++ join (item_separator (S level)) (map (pair_text (S level)) (kv :: d'))
       ++ newline_indent level ++ [125]) in *.
    cbn [app scan_once]. change (123 =? 34) with false.
    change (123 =? 123) with true. cbv iota.
    rewrite <- !app_assoc. rewrite skip_ws_newline_indent.
    assert (Hhead : exists r,
      join (item_separator (S level)) (map (pair_text (S level)) (kv :: d'))
      = 34 :: r).
    { cbn [map]. destruct d'.
      - cbn [map join]. by eexists.
      - rewrite join_cons by done. by eexists. }
    destruct Hhead as (r & Hj).
    pose proof (scan_pairs_dump (S level) level (kv :: d') Hall ltac:(done)
                  rest n) as Hpairs.
    rewrite Hj in *. cbn [app] in *.
    rewrite skip_ws_head by done. change (34 =? 125) with false. cbv iota.
    rewrite Hpairs.
    + cbn [mbind option_bind]. by rewrite dict_of_pairs_nodup.
    + clear -Hfuel. unfold newline_indent in Hfuel.
      repeat (rewrite length_app in Hfuel || cbn [app length] in Hfuel).
      cbn [length]. lia.
Qed.

(** [json.loads(json.dumps(v, indent=2, ensure_ascii=False)) == v] *)
Lemma json_loads_dumps (v : pyobj) :
  well_formed v = true -> json_loads (json_dumps v) = Some v.
Proof.
  intros Hwf. unfold json_loads, json_dumps.
  rewrite <- (app_nil_r (dump 0 v)) at 2. rewrite skip_ws_dump.
  rewrite (well_formed_reads_back v Hwf) by (done || lia). done.
Qed.

(** ** What [json.loads] returns is well formed *)

Lemma dict_set_keys_nodup (k : str) (v : pyobj) (d : list (str * pyobj)) :
  NoDup (map fst d) -> NoDup (map fst (dict_set k v d)).
Proof.
  intros Hnd.
  assert (Hkeys : map fst (dict_set k v d)
                  = if bool_decide (k ∈ map fst d) then map fst d
                    else map fst d ++ [k]).
  { clear Hnd. induction d as [|[k' v'] d IH]; [done |].
    cbn [dict_set map fst]. unfold str_eqb.
    destruct (decide (k = k')) as [-> | Hne].
    - rewrite bool_decide_eq_true_2 by done.
      rewrite bool_decide_eq_true_2 by apply list_elem_of_here. done.
    - rewrite bool_decide_eq_false_2 by done. cbn [map fst]. rewrite IH.
      destruct (decide (k ∈ map fst d)) as [Hin | Hnin].
      + rewrite !bool_decide_eq_true_2; [done | by apply list_elem_of_further | done].
      + rewrite !bool_decide_eq_false_2; [done | | done].
        intros Hin. apply elem_of_cons in Hin as [? | ?]; done. }
  rewrite Hkeys. case_bool_decide as Hin; [done |].
  apply NoDup_app. split_and!; [done | | apply NoDup_singleton].
  intros x Hx Hx'. apply list_elem_of_singleton in Hx' as ->. done.
Qed.

Lemma dict_set_values (P : pyobj -> Prop) (k : str) (v : pyobj)
    (d : list (str * pyobj)) :
  P v -> Forall (fun kv => P (snd kv)) d ->
  Forall (fun kv => P (snd kv)) (dict_set k v d).
Proof.
  intros Hv. induction 1 as [|[k' v'] d Hx Hd IH]; cbn [dict_set].
  - by constructor.
  - destruct (str_eqb k k'); constructor; done.
Qed.

Lemma dict_of_pairs_well_formed (kvs : list (str * pyobj)) :
  forallb (fun kv => well_formed (snd kv)) kvs = true ->
  well_formed (PyDict (dict_of_pairs kvs)) = true.
Proof.
  intros Hall. unfold dict_of_pairs.
  assert (H : forall acc : list (str * pyobj),
    well_formed (PyDict acc) = true ->
    well_formed (PyDict (fold_left (fun d kv => dict_set (fst kv) (snd kv) d) kvs acc))
    = true).
  { induction kvs as [|[k v] kvs IH]; intros acc Hacc; [done |].
    cbn [forallb snd] in Hall. apply andb_true_iff in Hall as [Hv Hall].
    cbn [fold_left fst snd]. apply IH; [done |].
    cbn [well_formed] in Hacc |- *. apply andb_true_iff in Hacc as [Hnd Hvals].
    apply bool_decide_eq_true in Hnd.
    apply andb_true_iff. split.
    - apply bool_decide_eq_true. by apply dict_set_keys_nodup.
    - apply forallb_forall. rewrite forallb_forall in Hvals.
      assert (HF : Forall (fun kv => well_formed (snd kv) = true) (dict_set k v acc)).
      { apply (dict_set_values (fun v => well_formed v = true)); [done |].
        apply Forall_forall. intros x Hx. apply Hvals. by apply list_elem_of_In. }
      rewrite Forall_forall in HF. intros x Hx. apply HF.
      by apply list_elem_of_In. }
  apply H. reflexivity.
Qed.

Lemma match_number_well_formed (s r : str) (v : pyobj) :
  match_number s = Some (v, r) -> well_formed v = true.
Proof.
  unfold match_number. intros H.
  repeat (case_match; simplify_eq; try done).
Qed.

Lemma scan_well_formed (fuel : nat) :
  (forall s v r, scan_once fuel s = Some (v, r) -> well_formed v = true)
  /\ (forall s vs r, scan_items fuel s = Some (vs, r) ->
        forallb well_formed vs = true)
  /\ (forall s kvs r, scan_pairs fuel s = Some (kvs, r) ->
        forallb (fun kv => well_formed (snd kv)) kvs = true).
Proof.
  induction fuel as [|n (IHv & IHl & IHp)]; [done |]. split_and!.
  - intros s v r H. cbn [scan_once] in H.
    destruct s as [|c s']; [done |].
    destruct (c =? 34).
    { destruct (scanstring s') as [[k r']|]; by simplify_option_eq. }
    destruct (c =? 123).
    { destruct (skip_ws s') as [|c' r']; [done |].
      destruct (c' =? 125); [by simplify_eq |].
      destruct (scan_pairs n (c' :: r')) as [[kvs r'']|] eqn:Hp;
        simplify_option_eq. apply dict_of_pairs_well_formed. eauto. }
    destruct (c =? 91).
    { destruct (skip_ws s') as [|c' r']; [done |].
      destruct (c' =? 93); [by simplify_eq |].
      destruct (scan_items n (c' :: r')) as [[vs r'']|] eqn:Hl;
        simplify_option_eq. cbn [well_formed]. eauto. }
    destruct (startswith (lit "null") (c :: s')); [by simplify_eq |].
    destruct (startswith (lit "true") (c :: s')); [by simplify_eq |].
    destruct (startswith (lit "false") (c :: s')); [by simplify_eq |].
    destruct (match_number (c :: s')) as [[v' r']|] eqn:Hm.
    { simplify_eq. by eapply match_number_well_formed. }
    destruct (startswith (lit "NaN") (c :: s')); [by simplify_eq |].
    destruct (startswith (lit "Infinity") (c :: s')); [by simplify_eq |].
    destruct (startswith (lit "-Infinity") (c :: s')); [by simplify_eq |].
    done.
  - intros s vs r H. cbn [scan_items] in H.
    destruct (scan_once n s) as [[v r1]|] eqn:Hv; [| done].
    cbn [mbind option_bind] in H.
    repeat (case_match; simplify_option_eq; try done);
      cbn [forallb]; apply andb_true_iff; split; eauto.
  - intros s kvs r H. cbn [scan_pairs] in H.
    repeat (case_match; simplify_option_eq; try done);
      cbn [forallb snd]; apply andb_true_iff; split; eauto.
Qed.

Lemma json_loads_well_formed (s : str) (v : pyobj) :
  json_loads s = Some v -> well_formed v = true.
Proof.
  unfold json_loads. intros H.
  destruct (scan_once _ _) as [[v' r]|] eqn:Hv; [| done].
  cbn [mbind option_bind] in H. destruct (skip_ws r); [| done].
  injection H as <-. by eapply (proj1 (scan_well_formed _)).
Qed.

(** * The transcript store *)

Lemma log_path_eq (filename : str) :
  path_join LOG_DIR filename
  = if startswith [47] filename then filename else lit "logs/" ++ filename.
Proof. unfold path_join. by destruct (startswith [47] filename). Qed.

(** Two log names never share a file. *)
Lemma log_path_inj (a b : str) :
  path_join LOG_DIR a = path_join LOG_DIR b -> a = b.
Proof.
  rewrite !log_path_eq.
  destruct (startswith [47] a) eqn:Ha, (startswith [47] b) eqn:Hb; intros H.
  - done.
  - subst a. done.
  - subst b. done.
  - by apply app_inv_head in H.
Qed.

(** No file yet: the log is created with the one entry. *)
Lemma append_fresh (filename : str) (data : pyobj) (σ : fs) :
  σ !! path_join LOG_DIR filename = None ->
  append_to_json_log filename data σ
  = (Return tt, <[path_join LOG_DIR filename := File (json_dumps (PyList [data])) true]> σ).
Proof.
  intros Hnone. unfold append_to_json_log. unfold_monad.
  rewrite Hnone. rewrite bool_decide_eq_false_2 by (by intros [? ?]).
  cbn -[json_loads json_dumps path_join LOG_DIR]. by rewrite Hnone.
Qed.

(** A readable log that holds a list: the list is written back with the
    entry at its end. *)
Lemma append_existing (filename : str) (data : pyobj) (σ : fs)
    (f : file) (old : list pyobj) :
  σ !! path_join LOG_DIR filename = Some f -> accessible f = true ->
  json_loads (contents f) = Some (PyList old) ->
  append_to_json_log filename data σ
  = (Return tt, <[path_join LOG_DIR filename := File (json_dumps (PyList (old ++ [data]))) true]> σ).
Proof.
  intros Hf Hacc Hold. unfold append_to_json_log. unfold_monad.
  rewrite Hf. rewrite bool_decide_eq_true_2 by eauto.
  cbn -[json_loads json_dumps path_join LOG_DIR]. by rewrite Hf, Hacc, Hold, Hf, Hacc.
Qed.

Lemma append_denied (filename : str) (data : pyobj) (σ : fs) (f : file) :
  σ !! path_join LOG_DIR filename = Some f -> accessible f = false ->
  append_to_json_log filename data σ = (Raise (PermissionError (path_join LOG_DIR filename)), σ).
Proof.
  intros Hf Hacc. unfold append_to_json_log. unfold_monad.
  rewrite Hf. rewrite bool_decide_eq_true_2 by eauto.
  cbn -[json_loads json_dumps path_join LOG_DIR]. by rewrite Hf, Hacc.
Qed.

Lemma append_unreadable (filename : str) (data : pyobj) (σ : fs) (f : file) :
  σ !! path_join LOG_DIR filename = Some f -> accessible f = true ->
  json_loads (contents f) = None ->
  append_to_json_log filename data σ = (Raise (JSONDecodeError (contents f)), σ).
Proof.
  intros Hf Hacc Hbad. unfold append_to_json_log. unfold_monad.
  rewrite Hf. rewrite bool_decide_eq_true_2 by eauto.
  cbn -[json_loads json_dumps path_join LOG_DIR]. by rewrite Hf, Hacc, Hbad.
Qed.

Lemma append_not_a_list (filename : str) (data : pyobj) (σ : fs)
    (f : file) (v : pyobj) :
  σ !! path_join LOG_DIR filename = Some f -> accessible f = true ->
  json_loads (contents f) = Some v -> (forall l, v <> PyList l) ->
  append_to_json_log filename data σ
  = (Raise (AttributeError (type_name v) (lit "append")), σ).
Proof.
  intros Hf Hacc Hv Hnl. unfold append_to_json_log. unfold_monad.
  rewrite Hf. rewrite bool_decide_eq_true_2 by eauto.
  cbn -[json_loads json_dumps path_join LOG_DIR]. rewrite Hf, Hacc, Hv. destruct v; try done. by destruct (Hnl l).
Qed.

(** Every way [append_to_json_log] can end. *)
Lemma append_cases (filename : str) (data : pyobj) (σ : fs) :
  (σ !! path_join LOG_DIR filename = None /\
   append_to_json_log filename data σ
   = (Return tt, <[path_join LOG_DIR filename := File (json_dumps (PyList [data])) true]> σ))
  \/ (exists f old, σ !! path_join LOG_DIR filename = Some f /\ accessible f = true /\
        json_loads (contents f) = Some (PyList old) /\
        append_to_json_log filename data σ
        = (Return tt,
           <[path_join LOG_DIR filename := File (json_dumps (PyList (old ++ [data]))) true]> σ))
  \/ (exists f e, σ !! path_join LOG_DIR filename = Some f /\
        (accessible f = false \/ json_loads (contents f) = None
         \/ exists v, json_loads (contents f) = Some v /\ forall l, v <> PyList l) /\
        append_to_json_log filename data σ = (Raise e, σ)).
Proof.
  destruct (σ !! path_join LOG_DIR filename) as [f|] eqn:Hf.
  - right. destruct (accessible f) eqn:Hacc.
    + destruct (json_loads (contents f)) as [v|] eqn:Hv.
      * assert (Hlist : (exists l, v = PyList l) \/ forall l, v <> PyList l).
        { destruct v; eauto. }
        destruct Hlist as [[l ->] | Hnl].
        -- left. exists f, l. split_and!; try done. by eapply append_existing.
        -- right. eexists f, _.
           split_and!; [done | | by eapply append_not_a_list; eauto]. eauto.
      * right. eexists f, _. split_and!; [done | | by eapply append_unreadable]. auto.
    + right. eexists f, _. split_and!; [done | | by eapply append_denied]. auto.
  - left. split; [done |]. by apply append_fresh.
Qed.

(** A failed append writes nothing. *)
Lemma append_raise_unchanged (filename : str) (data : pyobj) (σ : fs)
    (e : exn) (σ' : fs) :
  append_to_json_log filename data σ = (Raise e, σ') -> σ' = σ.
Proof.
  destruct (append_cases filename data σ) as [[_ H] | [(f & old & _ & _ & _ & H) | (f & e' & _ & _ & H)]];
    rewrite H; intros; by simplify_eq.
Qed.

(** An append changes no file but its own. *)
Lemma append_frame (filename : str) (data : pyobj) (σ : fs)
    (r : result unit) (σ' : fs) (path : str) :
  append_to_json_log filename data σ = (r, σ') -> path <> path_join LOG_DIR filename ->
  σ' !! path = σ !! path.
Proof.
  destruct (append_cases filename data σ) as [[_ H] | [(f & old & _ & _ & _ & H) | (f & e' & _ & _ & H)]];
    rewrite H; intros; simplify_eq; try done; by rewrite lookup_insert_ne.
Qed.


Lemma well_formed_list (l : list pyobj) :
  well_formed (PyList l) = true <-> Forall (fun v => well_formed v = true) l.
Proof.
  cbn [well_formed]. rewrite forallb_forall, Forall_forall.
  split; intros H x Hx; apply H; by apply list_elem_of_In.
Qed.


(** * The task router *)

Lemma is_file_task_spec (lower : str -> str) (msg : str) :
  is_file_task lower msg = true
  <-> exists kw, kw ∈ keywords /\ occurs_in kw (lower msg).
Proof.
  unfold is_file_task. rewrite existsb_exists. split.
  - intros (kw & Hin & Hc). exists kw. split; [by apply list_elem_of_In |].
    by apply contains_spec.
  - intros (kw & Hin & Hc). exists kw. split; [by apply list_elem_of_In |].
    by apply contains_spec.
Qed.

(** No keyword is made of white space. *)
Lemma keywords_not_blank (kw : str) :
  kw ∈ keywords -> Forall (fun c => is_space c = true) kw -> False.
Proof.
  intros Hin Hsp.
  assert (Hall : Forall (fun kw => forallb is_space kw = false) keywords).
  { repeat constructor. }
  rewrite Forall_forall in Hall. specialize (Hall kw Hin).
  assert (forallb is_space kw = true); [| congruence].
  apply forallb_forall. rewrite Forall_forall in Hsp.
  intros c Hc. apply Hsp. by apply list_elem_of_In.
Qed.

(** C1.  The router answers [Execution] when the force flag is set;
    otherwise it answers [Execution] exactly when the lowercased message
    holds one of the seven keywords as a substring, and [Generation] when
    it holds none.  A message of white space only, which lowercasing
    leaves as it is, is routed to [Generation].  The answer is a function
    of the message and the flag alone, and [process_message] runs the
    execution adapter on [Execution] and the streaming decoder on
    [Generation]. *)
Theorem router_classifies (lower : str -> str) (message : str) (force : bool) :
  (force = true -> routing_decision lower message force = Execution)
  /\ (force = false ->
      (routing_decision lower message force = Execution
       <-> exists kw, kw ∈ keywords /\ occurs_in kw (lower message)))
  /\ (routing_decision lower message force = Generation
      <-> force = false
          /\ ~ exists kw, kw ∈ keywords /\ occurs_in kw (lower message))
  /\ (Forall (fun c => is_space c = true) message -> lower message = message ->
      routing_decision lower message false = Generation)
  /\ (forall py_str exn_str w,
      process_message lower py_str exn_str w message force
      = match routing_decision lower message force with
        | Execution => execute_with_interpreter py_str exn_str w message
        | Generation =>
            response <- stream_ollama_response exn_str w message ;;
            ret (PyStr response)
        end).
Proof.
  unfold routing_decision.
  pose proof (is_file_task_spec lower message) as Hspec.
  split_and!.
  - by intros ->.
  - intros ->. cbn [orb]. rewrite <- Hspec.
    destruct (is_file_task lower message); split; done.
  - rewrite <- Hspec. destruct force, (is_file_task lower message); cbn [orb];
      split; try done; try (intros [? ?]; done).
  - intros Hsp Hlow. cbn [orb].
    destruct (is_file_task lower message) eqn:Hft; [| done].
    apply (is_file_task_spec lower message) in Hft as (kw & Hin & l & r & Hocc).
    exfalso.
    apply (keywords_not_blank kw Hin). rewrite Hlow in Hocc. rewrite Hocc in Hsp.
    apply Forall_app in Hsp as [_ Hsp]. by apply Forall_app in Hsp as [Hsp _].
  - done.
Qed.

(** The examples of the specification, and a message of blanks. *)
Lemma router_classifies_witness :
  routing_decision lower_ascii (lit "create a file called notes.txt") false = Execution
  /\ routing_decision lower_ascii (lit "what is the capital of France") false = Generation
  /\ routing_decision lower_ascii [32; 9; 32] false = Generation
  /\ routing_decision lower_ascii [] true = Execution.
Proof.
  split_and!.
  - apply (proj1 (proj2 (router_classifies lower_ascii _ false))); [reflexivity |].
    exists (lit "create"). split.
    { do 2 apply list_elem_of_further. apply list_elem_of_here. }
    exists [], (lit " a file called notes.txt"). reflexivity.
  - apply (proj1 (proj2 (proj2 (router_classifies lower_ascii _ false)))).
    split; [reflexivity |]. intros (kw & Hin & Hocc).
    apply contains_spec in Hocc.
    assert (Hall : Forall (fun kw =>
              contains kw (lower_ascii (lit "what is the capital of France")) = false)
              keywords) by (repeat constructor).
    rewrite Forall_forall in Hall. rewrite (Hall kw Hin) in Hocc. discriminate.
  - apply (proj1 (proj2 (proj2 (proj2 (router_classifies lower_ascii _ false))))).
    + repeat constructor.
    + reflexivity.
  - apply (proj1 (router_classifies lower_ascii _ true)). reflexivity.
Defined.

(** * The streaming decoder *)

Lemma try_except_returns {A : Type} (m : M A) (f : exn -> A) (σ : fs) :
  exists a σ', try_except m (fun e => ret (f e)) σ = (Return a, σ').
Proof.
  unfold try_except, ret. destruct (m σ) as [[a | e] σ']; eauto.
Qed.







(** Reading the response writes no file. *)
Lemma decode_frame_pure (c : str) (line : bytes) (σ : fs) :
  snd (decode_frame c line σ) = σ.
Proof.
  unfold decode_frame. destruct line as [|b line]; [done |].
  destruct (decode_utf8 _); [| done]. unfold_monad.
  destruct (json_loads _) as [chunk|]; [| done].
  destruct chunk; try done. cbn [get_response]. unfold ret.
  destruct (truthy _); [| done].
  by destruct (dict_get _ _ _).
Qed.

Lemma decode_frames_pure (frames : list bytes) (c : str) (σ : fs) :
  snd (decode_frames frames c σ) = σ.
Proof.
  revert c. induction frames as [|line frames IH]; intros c; [done |].
  cbn [decode_frames]. unfold bind.
  pose proof (decode_frame_pure c line σ) as Hp.
  destruct (decode_frame c line σ) as [[c' | e] σ']; cbn [snd] in Hp; subst σ'.
  - apply IH.
  - done.
Qed.

Lemma read_response_pure (h : http_outcome) (σ : fs) :
  snd (read_response h σ) = σ.
Proof.
  destruct h as [e | status frames broken]; [done |].
  cbn [read_response]. unfold bind.
  pose proof (decode_frames_pure frames [] σ) as Hp.
  destruct (decode_frames frames [] σ) as [[c | e] σ']; cbn [snd] in Hp; subst σ'.
  - by destruct broken.
  - done.
Qed.


(** One pass of each [replace]: a marker that the removal of another
    puts together stays in the clean text. *)
Example filter_response_one_pass :
  filter_response (lit " <th<think>ink>x ") = lit "<think>x".
Proof. reflexivity. Qed.



Lemma or_fallback_nonempty (filtered_response : str) :
  or_fallback filtered_response <> [].
Proof. by destruct filtered_response. Qed.

(** What [stream_ollama_response] does once the body has been read. *)
Lemma stream_after_read (exn_str : exn -> str) (w : world) (message c : str) (σ : fs) :
  read_response (http w) σ = (Return c, σ) ->
  stream_ollama_response exn_str w message σ
  = try_except (log_response (now w) message c)
      (fun e => ret (lit "Error connecting to Ollama: " ++ exn_str e)) σ.
Proof.
  intros Hread. unfold stream_ollama_response, try_except, bind. by rewrite Hread.
Qed.


(** The call that goes through: both entries are appended, in this
    order, and the clean text or the fallback is returned. *)
Lemma stream_completes (exn_str : exn -> str) (w : world) (message c : str)
    (σ σ1 σ2 : fs) :
  read_response (http w) σ = (Return c, σ) ->
  append_to_json_log CLEAN_LOG
    (log_entry (now w) message (PyStr (filter_response c))) σ = (Return tt, σ1) ->
  append_to_json_log RAW_LOG
    (log_entry (now w) message (PyStr (strip c))) σ1 = (Return tt, σ2) ->
  stream_ollama_response exn_str w message σ
  = (Return (or_fallback (filter_response c)), σ2).
Proof.
  intros Hread H1 H2. rewrite (stream_after_read _ _ _ c) by done.
  unfold try_except, log_response, bind. by rewrite H1, H2.
Qed.

(** C7, as amended.  When the text accumulated from the frames is empty
    after filtering and trimming, and both transcript entries are
    appended without a fault, the decoder returns the fallback string;
    and whatever the frames and the files, the decoder returns, and what
    it returns is never the empty string. *)
Theorem decoder_fallback (exn_str : exn -> str) (w : world) (message : str) (σ : fs) :
  (forall c σ1 σ2,
     read_response (http w) σ = (Return c, σ) ->
     filter_response c = [] ->
     append_to_json_log CLEAN_LOG
       (log_entry (now w) message (PyStr (filter_response c))) σ = (Return tt, σ1) ->
     append_to_json_log RAW_LOG
       (log_entry (now w) message (PyStr (strip c))) σ1 = (Return tt, σ2) ->
     stream_ollama_response exn_str w message σ
     = (Return (lit "I understand. How can I help you?"), σ2))
  /\ exists response σ',
       stream_ollama_response exn_str w message σ = (Return response, σ')
       /\ response <> [].
Proof.
  split.
  - intros c σ1 σ2 Hread Hempty H1 H2.
    rewrite (stream_completes _ _ _ c σ σ1 σ2) by done. by rewrite Hempty.
  - unfold stream_ollama_response, try_except.
    destruct (bind _ _ σ) as [[s | e] σ'] eqn:Hbody.
    + exists s, σ'. split; [done |]. unfold bind in Hbody.
      destruct (read_response (http w) σ) as [[c | e] σ0]; [| done].
      unfold log_response, bind in Hbody.
      destruct (append_to_json_log CLEAN_LOG _ σ0) as [[[] | e] σ1]; [| done].
      destruct (append_to_json_log RAW_LOG _ σ1) as [[[] | e] σ2]; [| done].
      unfold ret in Hbody. injection Hbody as <- _. apply or_fallback_nonempty.
    + eexists _, _. split; [reflexivity | done].
Qed.

(** A body of markers and blanks, on an empty log directory. *)
Lemma decoder_fallback_witness :
  let w := World (lit "2026-01-01 00:00:00")
                 (Response 200 [bq "{'response':' <think>'}"; bq "{'response':'</think> '}"] None)
                 (ChatReturned PyNone) in
  exists σ2,
    stream_ollama_response str_of_exn w (lit "hi") ∅
    = (Return (lit "I understand. How can I help you?"), σ2).
Proof.
  intros w.
  set (c := lit " <think></think> ").
  set (σ1 := <[path_join LOG_DIR CLEAN_LOG :=
                 File (json_dumps (PyList [log_entry (now w) (lit "hi")
                                             (PyStr (filter_response c))])) true]>
               (∅ : fs)).
  set (σ2 := <[path_join LOG_DIR RAW_LOG :=
                 File (json_dumps (PyList [log_entry (now w) (lit "hi")
                                             (PyStr (strip c))])) true]> σ1).
  exists σ2.
  apply (proj1 (decoder_fallback str_of_exn w (lit "hi") ∅) c σ1 σ2).
  - reflexivity.
  - reflexivity.
  - apply append_fresh. reflexivity.
  - apply append_fresh. unfold σ1. by rewrite lookup_insert_ne.
Defined.

(** Two bodies whose text is empty and for which the decoder returns
    its error string: the clean log holds a JSON object, not a list, so
    the append faults; a frame is valid JSON and no record, so the loop
    faults before any text is filtered. *)
Lemma decoder_fallback_counterexample :
  let w frames := World (lit "2026-01-01 00:00:00") (Response 200 frames None)
                        (ChatReturned PyNone) in
  let σ : fs := {[ path_join LOG_DIR CLEAN_LOG := File (lit "{}") true ]} in
  read_response (http (w [])) σ = (Return [], σ)
  /\ filter_response [] = []
  /\ stream_ollama_response str_of_exn (w []) (lit "hi") σ
     = (Return (lit "Error connecting to Ollama: 'dict' object has no attribute 'append'"),
        σ)
  /\ stream_ollama_response str_of_exn (w [bq "5"]) (lit "hi") ∅
     = (Return (lit "Error connecting to Ollama: 'int' object has no attribute 'get'"),
        ∅).
Proof. split_and!; reflexivity. Qed.




(** * The execution adapter *)

Lemma last_cons_default (l : list pyobj) (x d : pyobj) :
  List.last (x :: l) d = List.last l x.
Proof.
  revert x d. induction l as [|y l IH]; intros x d; [done |].
  change (List.last (x :: y :: l) d) with (List.last (y :: l) d).
  rewrite IH. symmetry. apply IH.
Qed.

Lemma last_snoc (l : list pyobj) (x last : pyobj) (l0 : list pyobj) :
  x :: l = l0 ++ [last] -> List.last l x = last.
Proof.
  intros H. rewrite <- (last_cons_default l x PyNone), H. apply last_last.
Qed.

Lemma normalize_result_snoc (py_str : pyobj -> str) (l : list pyobj) (last : pyobj) :
  normalize_result py_str (PyList (l ++ [last]))
  = match last with
    | PyDict d =>
        py_or (py_or (dict_get (lit "content") d PyNone)
                     (dict_get (lit "output") d PyNone))
              (PyStr TASK_COMPLETED)
    | _ => PyStr (py_str last)
    end.
Proof.
  destruct (l ++ [last]) as [|x l'] eqn:Hl; [by destruct l |].
  cbn [normalize_result]. rewrite (last_snoc l' x last l (eq_sym Hl)).
  by destruct last.
Qed.

Lemma execute_returns (py_str : pyobj -> str) (exn_str : exn -> str) (w : world)
    (task : str) (result : pyobj) (σ σ' : fs) :
  chat w = ChatReturned result ->
  append_to_json_log INTERPRETER_LOG
    (log_entry (now w) task (normalize_result py_str result)) σ = (Return tt, σ') ->
  execute_with_interpreter py_str exn_str w task σ
  = (Return (normalize_result py_str result), σ').
Proof.
  intros Hchat Happ. unfold execute_with_interpreter, try_except, bind.
  rewrite Hchat. unfold ret at 1. by rewrite Happ.
Qed.

Lemma execute_chat_raised (py_str : pyobj -> str) (exn_str : exn -> str) (w : world)
    (task : str) (e : exn) (σ : fs) :
  chat w = ChatRaised e ->
  execute_with_interpreter py_str exn_str w task σ
  = (Return (PyStr (lit "[Error] Interpreter failed: " ++ exn_str e)), σ).
Proof.
  intros Hchat. unfold execute_with_interpreter, try_except, bind.
  by rewrite Hchat.
Qed.


(** C3, as amended.  When the backend returns a non-empty list, the
    adapter takes its last record.  If that record is a dict, the output
    is the value under ["content"] when that value is truthy, else the
    value under ["output"] when that is truthy, else the string ["Task
    completed."]; if it is not a dict, the output is the record
    stringified.  When the backend returns an empty list, or something
    that is no list, the output is ["Task completed."].  This output is
    what the adapter returns whenever the entry is appended to the
    execution log without a fault. *)
Theorem adapter_normalizes (py_str : pyobj -> str) (exn_str : exn -> str)
    (w : world) (task : str) (result : pyobj) (σ σ' : fs) :
  chat w = ChatReturned result ->
  append_to_json_log INTERPRETER_LOG
    (log_entry (now w) task (normalize_result py_str result)) σ = (Return tt, σ') ->
  let output := normalize_result py_str result in
  execute_with_interpreter py_str exn_str w task σ = (Return output, σ')
  /\ (forall l d, result = PyList (l ++ [PyDict d]) ->
        let content := dict_get (lit "content") d PyNone in
        let out := dict_get (lit "output") d PyNone in
        (truthy content = true -> output = content)
        /\ (truthy content = false -> truthy out = true -> output = out)
        /\ (truthy content = false -> truthy out = false ->
            output = PyStr (lit "Task completed.")))
  /\ (forall l last, result = PyList (l ++ [last]) ->
        (forall d, last <> PyDict d) -> output = PyStr (py_str last))
  /\ (result = PyList [] \/ (forall l, result <> PyList l) ->
        output = PyStr (lit "Task completed.")).
Proof.
  intros Hchat Happ output. split_and!.
  - by apply execute_returns.
  - intros l d -> content out. unfold output.
    rewrite normalize_result_snoc. fold content out. unfold py_or.
    split_and!.
    + intros Hc. by rewrite Hc, Hc.
    + intros Hc Ho. by rewrite Hc, Ho.
    + intros Hc Ho. by rewrite Hc, Ho.
  - intros l last -> Hnd. unfold output. rewrite normalize_result_snoc.
    destruct last; try done. by destruct (Hnd d).
  - intros [-> | Hnl]; [done |]. unfold output.
    destruct result; try done. by destruct (Hnl l).
Qed.

(** A reply whose last record carries its text under ["content"]. *)
Lemma adapter_normalizes_witness :
  let result := PyList [PyDict [(lit "role", PyStr (lit "user"))];
                        PyDict [(lit "role", PyStr (lit "assistant"));
                                (lit "content", PyStr (lit "Done."))]] in
  let w := World (lit "2026-01-01 00:00:00") (PostFailed (ExternalError []))
                 (ChatReturned result) in
  exists σ',
    execute_with_interpreter str_of_value str_of_exn w (lit "list files") ∅
    = (Return (PyStr (lit "Done.")), σ').
Proof.
  intros result w. eexists.
  apply (proj1 (adapter_normalizes str_of_value str_of_exn w (lit "list files")
                  result ∅ _ eq_refl
                  (append_fresh INTERPRETER_LOG _ ∅ (lookup_empty _)))).
Defined.

(** The backend returns an empty list: ["Task completed."] is returned,
    and is the response of the entry the execution log then holds. *)
Example empty_result_logged :
  let w := World (lit "2026-01-01 00:00:00") (PostFailed (ExternalError []))
                 (ChatReturned (PyList [])) in
  exists σ',
    execute_with_interpreter str_of_value str_of_exn w (lit "list files") ∅
    = (Return (PyStr (lit "Task completed.")), σ')
    /\ read_log INTERPRETER_LOG σ'
       = (Return (PyList [log_entry (now w) (lit "list files")
                            (PyStr (lit "Task completed."))]), σ').
Proof. intros w. eexists. split; reflexivity. Qed.

(** Results on which the adapter does not do what the specification
    words: a ["content"] that is there and empty is not the output; a
    dict with neither field is not stringified; and when the execution
    log cannot be appended to (here it holds an object, not a list), the
    output is the error string, whatever the record holds. *)
Lemma adapter_normalizes_counterexample :
  let empty_content := PyList [PyDict [(lit "content", PyStr [])]] in
  let no_field := PyList [PyDict []] in
  let done := PyList [PyDict [(lit "content", PyStr (lit "Done."))]] in
  let w := World (lit "2026-01-01 00:00:00") (PostFailed (ExternalError []))
                 (ChatReturned done) in
  let σ : fs := {[ path_join LOG_DIR INTERPRETER_LOG := File (lit "{}") true ]} in
  specified_output str_of_value empty_content = PyStr []
  /\ normalize_result str_of_value empty_content = PyStr (lit "Task completed.")
  /\ specified_output str_of_value no_field = PyStr (lit "{}")
  /\ normalize_result str_of_value no_field = PyStr (lit "Task completed.")
  /\ specified_output str_of_value done = PyStr (lit "Done.")
  /\ execute_with_interpreter str_of_value str_of_exn w (lit "list files") σ
     = (Return (PyStr (lit "[Error] Interpreter failed: 'dict' object has no attribute 'append'")),
        σ).
Proof. split_and!; reflexivity. Qed.



(** * Appending and reading back *)

(** A successful append puts the entry at the end of what the log held
    and rewrites the one file. *)
Lemma append_grows (filename : str) (data : pyobj) (σ σ' : fs) :
  append_to_json_log filename data σ = (Return tt, σ') ->
  exists old,
    holds_entries σ filename old
    /\ σ' = <[path_join LOG_DIR filename :=
               File (json_dumps (PyList (old ++ [data]))) true]> σ.
Proof.
  intros Happ. unfold holds_entries.
  destruct (append_cases filename data σ)
    as [[Hnone H] | [(f & old & Hf & Hacc & Hold & H) | (f & e & _ & _ & H)]];
    rewrite H in Happ; simplify_eq.
  - exists []. by rewrite Hnone.
  - exists old. by rewrite Hf.
Qed.

Lemma holds_entries_well_formed (σ : fs) (filename : str) (old : list pyobj) :
  holds_entries σ filename old -> Forall (fun v => well_formed v = true) old.
Proof.
  unfold holds_entries. destruct (σ !! _) as [f|]; [| by intros ->].
  intros [_ Hold]. by apply well_formed_list, (json_loads_well_formed (contents f)).
Qed.

Lemma holds_entries_written (filename : str) (l : list pyobj) (σ : fs) :
  Forall (fun v => well_formed v = true) l ->
  holds_entries (<[path_join LOG_DIR filename := File (json_dumps (PyList l)) true]> σ)
    filename l.
Proof.
  intros Hwf. unfold holds_entries. rewrite lookup_insert_eq. cbn [accessible contents].
  split; [done |]. by apply json_loads_dumps, well_formed_list.
Qed.





(** * Faults *)



(** * Transcript entries per call *)

(** C9, as amended.  A generation call that completes (the body is
    read and both appends return) has made exactly two appends: the
    entry with the filtered text to the clean log, then the entry with
    the unfiltered, trimmed text to the raw log; each of the two logs has
    gained that one entry at its end.  An execution call in which the
    backend returns and the append returns has made exactly one append,
    to the execution log, whose name differs from both; an execution
    call in which the backend raises appends nothing and leaves every
    file as it was. *)
Theorem entries_per_call (py_str : pyobj -> str) (exn_str : exn -> str)
    (w : world) (message : str) (σ : fs) :
  (forall c σ1 σ2,
     read_response (http w) σ = (Return c, σ) ->
     let clean_data := log_entry (now w) message (PyStr (filter_response c)) in
     let raw_data := log_entry (now w) message (PyStr (strip c)) in
     append_to_json_log CLEAN_LOG clean_data σ = (Return tt, σ1) ->
     append_to_json_log RAW_LOG raw_data σ1 = (Return tt, σ2) ->
     stream_ollama_response exn_str w message σ
     = (Return (or_fallback (filter_response c)), σ2)
     /\ exists old_clean old_raw,
          holds_entries σ CLEAN_LOG old_clean
          /\ holds_entries σ RAW_LOG old_raw
          /\ holds_entries σ2 CLEAN_LOG (old_clean ++ [clean_data])
          /\ holds_entries σ2 RAW_LOG (old_raw ++ [raw_data])
          /\ forall path, path <> path_join LOG_DIR CLEAN_LOG ->
                          path <> path_join LOG_DIR RAW_LOG ->
                          σ2 !! path = σ !! path)
  /\ (forall result σ1,
        chat w = ChatReturned result ->
        let log_data := log_entry (now w) message (normalize_result py_str result) in
        append_to_json_log INTERPRETER_LOG log_data σ = (Return tt, σ1) ->
        execute_with_interpreter py_str exn_str w message σ
        = (Return (normalize_result py_str result), σ1)
        /\ exists old,
             holds_entries σ INTERPRETER_LOG old
             /\ σ1 = <[path_join LOG_DIR INTERPRETER_LOG :=
                        File (json_dumps (PyList (old ++ [log_data]))) true]> σ)
  /\ (forall e, chat w = ChatRaised e ->
        execute_with_interpreter py_str exn_str w message σ
        = (Return (PyStr (lit "[Error] Interpreter failed: " ++ exn_str e)), σ))
  /\ CLEAN_LOG <> RAW_LOG /\ INTERPRETER_LOG <> CLEAN_LOG /\ INTERPRETER_LOG <> RAW_LOG.
Proof.
  split_and!; try discriminate.
  - intros c σ1 σ2 Hread clean_data raw_data H1 H2. split.
    + by eapply stream_completes.
    + destruct (append_grows _ _ _ _ H1) as (old_clean & Hc & ->).
      destruct (append_grows _ _ _ _ H2) as (old_raw & Hr & ->).
      assert (Hne : path_join LOG_DIR CLEAN_LOG <> path_join LOG_DIR RAW_LOG)
        by discriminate.
      exists old_clean, old_raw. split_and!.
      * done.
      * unfold holds_entries in Hr |- *. by rewrite lookup_insert_ne in Hr.
      * unfold holds_entries. rewrite lookup_insert_ne by done.
        rewrite lookup_insert_eq. cbn [accessible contents]. split; [done |].
        apply json_loads_dumps, well_formed_list, Forall_app. split.
        -- by eapply holds_entries_well_formed.
        -- by constructor.
      * apply holds_entries_written, Forall_app. split.
        -- by eapply holds_entries_well_formed.
        -- by constructor.
      * intros path Hp1 Hp2. by rewrite !lookup_insert_ne.
  - intros result σ1 Hchat log_data Happ. split.
    + by apply execute_returns.
    + by apply append_grows.
  - intros e Hchat. by apply execute_chat_raised.
Qed.

(** A reply with its reasoning markers, and an execution whose last
    record carries its text, each on an empty log directory. *)
Lemma entries_per_call_witness :
  let w := World (lit "2026-01-01 00:00:00")
                 (Response 200 [bq "{'response':'<think>hm</think>'}";
                                bq "{'response':' Hello '}"] None)
                 (ChatReturned (PyList [PyDict [(lit "content", PyStr (lit "Done."))]])) in
  (exists σ2,
     stream_ollama_response str_of_exn w (lit "hi") ∅ = (Return (lit "hm Hello"), σ2)
     /\ holds_entries σ2 CLEAN_LOG
          [log_entry (now w) (lit "hi") (PyStr (lit "hm Hello"))]
     /\ holds_entries σ2 RAW_LOG
          [log_entry (now w) (lit "hi") (PyStr (lit "<think>hm</think> Hello"))])
  /\ (exists σ1,
        execute_with_interpreter str_of_value str_of_exn w (lit "hi") ∅
        = (Return (PyStr (lit "Done.")), σ1)
        /\ holds_entries σ1 INTERPRETER_LOG
             [log_entry (now w) (lit "hi") (PyStr (lit "Done."))]).
Proof.
  intros w. split.
  - set (c := lit "<think>hm</think> Hello ").
    set (σ1 := <[path_join LOG_DIR CLEAN_LOG :=
                   File (json_dumps (PyList [log_entry (now w) (lit "hi")
                                               (PyStr (filter_response c))])) true]>
                 (∅ : fs)).
    set (σ2 := <[path_join LOG_DIR RAW_LOG :=
                   File (json_dumps (PyList [log_entry (now w) (lit "hi")
                                               (PyStr (strip c))])) true]> σ1).
    destruct (proj1 (entries_per_call str_of_value str_of_exn w (lit "hi") ∅) c σ1 σ2)
      as (Hret & old_clean & old_raw & Hc0 & Hr0 & Hc & Hr & _).
    + reflexivity.
    + apply append_fresh. reflexivity.
    + apply append_fresh. unfold σ1. by rewrite lookup_insert_ne.
    + exists σ2. unfold holds_entries in Hc0, Hr0.
      rewrite lookup_empty in Hc0, Hr0. subst old_clean old_raw.
      split_and!; [exact Hret | exact Hc | exact Hr].
  - eexists.
    destruct (proj1 (proj2 (entries_per_call str_of_value str_of_exn w (lit "hi") ∅))
                _ _ eq_refl (append_fresh INTERPRETER_LOG _ ∅ (lookup_empty _)))
      as (Hret & old & Hold & _).
    split; [exact Hret |]. split; reflexivity.
Defined.

(** Two execution calls that persist no entry: the backend raises; the
    backend returns and the execution log cannot be appended to.  The
    adapter returns its error string and every file is as it was. *)
Lemma entries_per_call_counterexample :
  let failed := World (lit "2026-01-01 00:00:00") (PostFailed (ExternalError []))
                      (ChatRaised (ExternalError (lit "model not found"))) in
  let returned := World (lit "2026-01-01 00:00:00") (PostFailed (ExternalError []))
                        (ChatReturned (PyList [])) in
  let σ : fs := {[ path_join LOG_DIR INTERPRETER_LOG := File (lit "{}") true ]} in
  execute_with_interpreter str_of_value str_of_exn failed (lit "list files") ∅
  = (Return (PyStr (lit "[Error] Interpreter failed: model not found")), ∅)
  /\ (∅ : fs) !! path_join LOG_DIR INTERPRETER_LOG = None
  /\ execute_with_interpreter str_of_value str_of_exn returned (lit "list files") σ
     = (Return (PyStr (lit "[Error] Interpreter failed: 'dict' object has no attribute 'append'")),
        σ).
Proof. split_and!; reflexivity. Qed.

(** * More facts about text *)

Lemma lstrip_spaces (pad s : str) :
  Forall (fun c => is_space c = true) pad -> lstrip (pad ++ s) = lstrip s.
Proof.
  induction 1 as [|c pad Hc _ IH]; [done |]. cbn [app lstrip]. by rewrite Hc.
Qed.

Lemma lstrip_split (s : str) :
  exists pad, s = pad ++ lstrip s /\ Forall (fun c => is_space c = true) pad.
Proof.
  induction s as [|c s (pad & Hs & Hpad)]; [by exists [] |].
  cbn [lstrip]. destruct (is_space c) eqn:Hc.
  - exists (c :: pad). split; [by rewrite Hs at 1 | by constructor].
  - by exists [].
Qed.

Lemma lstrip_nil (s : str) :
  lstrip s = [] <-> Forall (fun c => is_space c = true) s.
Proof.
  split.
  - intros H. destruct (lstrip_split s) as (pad & Hs & Hpad).
    rewrite H, app_nil_r in Hs. by subst.
  - intros H. rewrite <- (app_nil_r s). by rewrite lstrip_spaces.
Qed.

Lemma rstrip_spaces (s pad : str) :
  Forall (fun c => is_space c = true) pad -> rstrip (s ++ pad) = rstrip s.
Proof.
  intros H. unfold rstrip. rewrite rev_app_distr, lstrip_spaces; [done |].
  by apply Forall_rev.
Qed.

Lemma rstrip_split (s : str) :
  exists pad, s = rstrip s ++ pad /\ Forall (fun c => is_space c = true) pad.
Proof.
  unfold rstrip. destruct (lstrip_split (rev s)) as (pad & Hs & Hpad).
  exists (rev pad). split.
  - rewrite <- rev_app_distr, <- Hs. by rewrite rev_involutive.
  - by apply Forall_rev.
Qed.

Lemma rstrip_nil (s : str) :
  rstrip s = [] <-> Forall (fun c => is_space c = true) s.
Proof.
  split.
  - intros H. destruct (rstrip_split s) as (pad & Hs & Hpad).
    rewrite H in Hs. by subst.
  - intros H. change s with ([] ++ s). by rewrite rstrip_spaces.
Qed.

(** Text that ends with no white space is its own [rstrip]. *)
Lemma rstrip_fixed (s : str) (c : N) :
  is_space c = false -> rstrip (s ++ [c]) = s ++ [c].
Proof. intros Hc. by rewrite rstrip_snoc, Hc. Qed.

Lemma strip_nil (s : str) :
  strip s = [] <-> Forall (fun c => is_space c = true) s.
Proof.
  unfold strip. rewrite rstrip_nil. split.
  - intros H. destruct (lstrip_split s) as (pad & Hs & Hpad).
    rewrite Hs. by apply Forall_app.
  - intros H. apply lstrip_nil in H. by rewrite H.
Qed.

(** White space around a text does not change its [strip]. *)
Lemma strip_padded (before s after : str) :
  Forall (fun c => is_space c = true) before ->
  Forall (fun c => is_space c = true) after ->
  strip (before ++ s ++ after) = strip s.
Proof.
  intros Hb Ha. unfold strip. rewrite lstrip_spaces by done.
  destruct (lstrip_split s) as (pad & Hs & Hpad).
  destruct (lstrip s) as [|c t] eqn:Hl.
  - rewrite app_nil_r in Hs. subst pad.
    assert (Hall : Forall (fun c => is_space c = true) (s ++ after))
      by (by apply Forall_app).
    apply lstrip_nil in Hall. by rewrite Hall.
  - pose proof (lstrip_head s) as Hh. rewrite Hl in Hh.
    rewrite Hs at 1. rewrite <- app_assoc, lstrip_spaces by done.
    cbn [app lstrip]. rewrite Hh. change (c :: t ++ after) with ((c :: t) ++ after).
    by rewrite rstrip_spaces.
Qed.

(** ** [replace] *)

(** Nothing to replace: the text is returned as it is. *)
Lemma replace_absent (old new s : str) :
  old <> [] -> contains old s = false -> replace old new s = s.
Proof.
  intros Hold. unfold replace. induction s as [|c s IH]; intros Hc.
  - by destruct old.
  - cbn [contains] in Hc. apply orb_false_iff in Hc as [Hs Hc].
    cbn [replace_from]. destruct old as [|a old']; [done |].
    rewrite Hs. by rewrite IH.
Qed.

Lemma replace_from_skip (old new u v : str) :
  replace_from old new (length u) (u ++ v) = replace_from old new O v.
Proof.
  induction u as [|c u IH]; [done |]. cbn [length app replace_from]. done.
Qed.

(** An occurrence at the head is replaced, and the search goes on after
    it. *)
Lemma replace_head (old new v : str) :
  old <> [] -> replace old new (old ++ v) = new ++ replace old new v.
Proof.
  intros Hold. unfold replace. destruct old as [|a old']; [done |].
  cbn [app replace_from].
  assert (Hs : startswith (a :: old') (a :: old' ++ v) = true).
  { apply startswith_spec. by exists v. }
  rewrite Hs. by rewrite replace_from_skip.
Qed.

(** Characters that are not the first of [old] are passed over. *)
Lemma replace_pass (a : N) (old' new u v : str) :
  Forall (fun c => c <> a) u ->
  replace (a :: old') new (u ++ v) = u ++ replace (a :: old') new v.
Proof.
  unfold replace. induction 1 as [|c u Hc _ IH]; [done |].
  cbn [app replace_from]. cbn [startswith].
  destruct (N.eqb_spec a c); [by subst |]. cbn [andb]. by rewrite IH.
Qed.

(** ** [bytes.decode] *)

Lemma utf8_decode_app (a b : list N) (x : str) :
  utf8_decode a = Some x -> utf8_decode (a ++ b) = (x ++.) <$> utf8_decode b.
Proof.
  remember (length a) as n eqn:Hn. revert a x Hn.
  induction n as [n IH] using lt_wf_ind. intros a x Hn Ha. subst n.
  destruct a as [|b0 r0].
  { injection Ha as <-. cbn [app]. by destruct (utf8_decode b). }
  cbn [app]. cbn [utf8_decode] in Ha |- *.
  destruct (b0 <? 128).
  { apply fmap_Some in Ha as (x' & Hr & ->).
    rewrite (IH (length r0) ltac:(cbn; lia) r0 x' eq_refl Hr).
    by destruct (utf8_decode b). }
  destruct ((194 <=? b0) && (b0 <=? 223)).
  { destruct r0 as [|b1 r1]; [done |]. cbn [app].
    destruct (is_cont b1); [| done].
    apply fmap_Some in Ha as (x' & Hr & ->).
    rewrite (IH (length r1) ltac:(cbn; lia) r1 x' eq_refl Hr).
    by destruct (utf8_decode b). }
  destruct ((224 <=? b0) && (b0 <=? 239)).
  { destruct r0 as [|b1 [|b2 r2]]; [done | done |]. cbn [app].
    cbv zeta in Ha |- *.
    destruct (_ && is_cont b2); [| done].
    apply fmap_Some in Ha as (x' & Hr & ->).
    rewrite (IH (length r2) ltac:(cbn; lia) r2 x' eq_refl Hr).
    by destruct (utf8_decode b). }
  destruct ((240 <=? b0) && (b0 <=? 244)); [| done].
  destruct r0 as [|b1 [|b2 [|b3 r3]]]; [done | done | done |]. cbn [app].
  cbv zeta in Ha |- *.
  destruct (_ && is_cont b3); [| done].
  apply fmap_Some in Ha as (x' & Hr & ->).
  rewrite (IH (length r3) ltac:(cbn; lia) r3 x' eq_refl Hr).
  by destruct (utf8_decode b).
Qed.

Lemma utf8_decode_ascii (bs : list N) :
  Forall (fun b => b < 128) bs -> utf8_decode bs = Some bs.
Proof.
  induction 1 as [|b bs Hb _ IH]; [done |]. cbn [utf8_decode].
  apply N.ltb_lt in Hb. by rewrite Hb, IH.
Qed.

(** * A frame the loop does not get past *)






(** * Padding, and the reply filter *)

Lemma decode_utf8_padded (before line after : bytes) (text : str) :
  Forall (fun b => is_space_byte b = true) before ->
  Forall (fun b => is_space_byte b = true) after ->
  decode_utf8 line = Some text ->
  exists pad1 pad2,
    decode_utf8 (before ++ line ++ after) = Some (pad1 ++ text ++ pad2)
    /\ Forall (fun c => is_space c = true) pad1
    /\ Forall (fun c => is_space c = true) pad2.
Proof.
  intros Hb Ha Hline.
  assert (Hpad : forall pad : bytes,
             Forall (fun b => is_space_byte b = true) pad ->
             utf8_decode (map Byte.to_N pad) = Some (map Byte.to_N pad)
             /\ Forall (fun c => is_space c = true) (map Byte.to_N pad)).
  { intros pad Hp. split.
    - apply utf8_decode_ascii, Forall_map. eapply Forall_impl; [exact Hp |].
      intros b Hbyte. apply andb_true_iff in Hbyte as [Hlt _]. by apply N.ltb_lt.
    - apply Forall_map. eapply Forall_impl; [exact Hp |].
      intros b Hbyte. by apply andb_true_iff in Hbyte as [_ Hsp]. }
  destruct (Hpad before Hb) as [Hdb Hsb], (Hpad after Ha) as [Hda Hsa].
  exists (map Byte.to_N before), (map Byte.to_N after). split_and!; [| done | done].
  unfold decode_utf8 in *. rewrite !map_app.
  rewrite (utf8_decode_app _ _ _ Hdb), (utf8_decode_app _ _ _ Hline), Hda. done.
Qed.

(** X2.  ASCII white space around a frame (the newline that ends a
    line of the body, a carriage return, blanks) changes nothing: a
    frame that is UTF-8 text is decoded, padded, as it is without the
    padding, whatever it holds; and a line of white space alone is
    skipped, the text and the files staying as they are. *)
Theorem frame_padding_ignored (c : str) (before line after : bytes) (text : str)
    (σ : fs) :
  Forall (fun b => is_space_byte b = true) before ->
  Forall (fun b => is_space_byte b = true) after ->
  decode_utf8 line = Some text ->
  decode_frame c (before ++ line ++ after) σ = decode_frame c line σ
  /\ decode_frame c (before ++ after) σ = (Return c, σ).
Proof.
  intros Hb Ha Hline.
  assert (Hblank : forall pad : bytes,
             Forall (fun b => is_space_byte b = true) pad ->
             decode_frame c pad σ = (Return c, σ)).
  { intros pad Hp.
    destruct (decode_utf8_padded pad [] [] [] Hp (List.Forall_nil _) eq_refl)
      as (pad1 & pad2 & Hdec & H1 & H2).
    rewrite app_nil_r in Hdec. cbn [app] in Hdec.
    unfold decode_frame. destruct pad as [|b pad]; [done |].
    rewrite Hdec. rewrite (proj2 (strip_nil (pad1 ++ pad2))) by (by apply Forall_app).
    reflexivity. }
  split; [| by apply Hblank, Forall_app].
  destruct line as [|b line].
  { injection Hline as <-. cbn [app]. by apply Hblank, Forall_app. }
  destruct (decode_utf8_padded before (b :: line) after text Hb Ha Hline)
    as (pad1 & pad2 & Hdec & H1 & H2).
  unfold decode_frame at 1.
  destruct (before ++ (b :: line) ++ after) as [|b' line'] eqn:Hne.
  { by destruct before. }
  rewrite Hdec. rewrite strip_padded by done.
  unfold decode_frame. by rewrite Hline.
Qed.

Lemma frame_padding_ignored_witness :
  decode_frame (lit "Hel") (bq " {'response':'lo'}" ++ [x0d; x0a]) ∅
  = (Return (lit "Hello"), ∅)
  /\ decode_frame (lit "Hel") [x0a] ∅ = (Return (lit "Hel"), ∅).
Proof.
  destruct (frame_padding_ignored (lit "Hel") [x20] (bq "{'response':'lo'}")
              [x0d; x0a] (dq "{'response':'lo'}") ∅) as [Hframe _];
    [repeat constructor | repeat constructor | reflexivity |].
  destruct (frame_padding_ignored (lit "Hel") [x0a] [] [] [] ∅) as [_ Hblank];
    [repeat constructor | repeat constructor | reflexivity |].
  split.
  - etransitivity; [exact Hframe | reflexivity].
  - exact Hblank.
Defined.

(** X3.  The filter removes the two tags of a reasoning block and keeps
    the text between them: for a reply with one block, in which [<]
    occurs nowhere but at the head of the two tags, the clean text is
    the text before the block, the reasoning and the text after the
    block, trimmed. *)
Theorem think_tags_removed_text_kept (before reasoning after : str) :
  Forall (fun c => c <> 60) before ->
  Forall (fun c => c <> 60) reasoning ->
  Forall (fun c => c <> 60) after ->
  filter_response (before ++ lit "<think>" ++ reasoning ++ lit "</think>" ++ after)
  = strip (before ++ reasoning ++ after).
Proof.
  intros Hb Hr Ha. unfold filter_response. f_equal.
  assert (Hno : forall a old' new (s : str),
             Forall (fun c => c <> a) s -> replace (a :: old') new s = s).
  { intros a old' new s Hs. rewrite <- (app_nil_r s) at 1.
    rewrite replace_pass by done. by rewrite app_nil_r. }
  assert (H1 : replace (lit "<think>") []
                 (before ++ lit "<think>" ++ reasoning ++ lit "</think>" ++ after)
               = before ++ reasoning ++ lit "</think>" ++ after).
  { change (lit "<think>") with (60 :: lit "think>") at 1.
    rewrite replace_pass by done. f_equal.
    change (60 :: lit "think>") with (lit "<think>").
    rewrite replace_head by done. cbn [app].
    change (lit "<think>") with (60 :: lit "think>").
    rewrite replace_pass by done. f_equal.
    change (lit "</think>" ++ after) with (60 :: lit "/think>" ++ after).
    unfold replace. cbn -[lit]. 
    change (replace_from (60 :: lit "think>") [] 0 (lit "/think>" ++ after))
      with (replace (60 :: lit "think>") [] (lit "/think>" ++ after)).
    rewrite replace_pass by (repeat constructor; done).
    by rewrite Hno. }
  rewrite H1.
  change (lit "</think>") with (60 :: lit "/think>") at 1.
  rewrite replace_pass by done. f_equal.
  rewrite replace_pass by done. f_equal.
  change (60 :: lit "/think>") with (lit "</think>").
  rewrite replace_head by done. cbn [app]. by apply Hno.
Qed.

Lemma think_tags_removed_text_kept_witness :
  filter_response (lit "<think>The user greets me.</think> Hello!")
  = lit "The user greets me. Hello!".
Proof.
  etransitivity.
  - apply (think_tags_removed_text_kept [] (lit "The user greets me.") (lit " Hello!"));
      repeat constructor; done.
  - reflexivity.
Defined.

(** X4.  When the accumulated text holds neither marker, the clean text
    is the text trimmed, and the clean log and the raw log are appended
    one and the same entry. *)
Theorem unmarked_reply_logged_alike (timestamp message c : str) :
  contains (lit "<think>") c = false ->
  contains (lit "</think>") c = false ->
  filter_response c = strip c
  /\ log_response timestamp message c
     = (let entry := log_entry timestamp message (PyStr (strip c)) in
        _ <- append_to_json_log CLEAN_LOG entry ;;
        _ <- append_to_json_log RAW_LOG entry ;;
        ret (or_fallback (strip c))).
Proof.
  intros Hopen Hclose.
  assert (Hf : filter_response c = strip c).
  { unfold filter_response. by rewrite (replace_absent _ _ c), replace_absent. }
  split; [done |]. unfold log_response. by rewrite Hf.
Qed.

Lemma unmarked_reply_logged_alike_witness :
  filter_response (lit " 2 < 3, think! ") = lit "2 < 3, think!".
Proof.
  etransitivity.
  - apply (unmarked_reply_logged_alike [] [] (lit " 2 < 3, think! ")); reflexivity.
  - reflexivity.
Defined.

(** * What the calls write *)



Lemma append_frame_snd (filename : str) (data : pyobj) (σ : fs) (path : str) :
  path <> path_join LOG_DIR filename ->
  snd (append_to_json_log filename data σ) !! path = σ !! path.
Proof.
  intros Hne. destruct (append_to_json_log filename data σ) as [r σ'] eqn:H.
  by eapply append_frame.
Qed.

Lemma log_response_frame (timestamp message c : str) (σ : fs) (path : str) :
  path <> path_join LOG_DIR CLEAN_LOG -> path <> path_join LOG_DIR RAW_LOG ->
  snd (log_response timestamp message c σ) !! path = σ !! path.
Proof.
  intros H1 H2. unfold log_response, bind, ret.
  destruct (append_to_json_log CLEAN_LOG _ σ) as [[[] | e] σ1] eqn:Ha.
  - destruct (append_to_json_log RAW_LOG _ σ1) as [[[] | e] σ2] eqn:Hb; cbn [snd];
      rewrite (append_frame _ _ _ _ _ _ Hb H2); by rewrite (append_frame _ _ _ _ _ _ Ha H1).
  - cbn [snd]. by rewrite (append_frame _ _ _ _ _ _ Ha H1).
Qed.

Lemma stream_frame (exn_str : exn -> str) (w : world) (message : str) (σ : fs)
    (path : str) :
  path <> path_join LOG_DIR CLEAN_LOG -> path <> path_join LOG_DIR RAW_LOG ->
  snd (stream_ollama_response exn_str w message σ) !! path = σ !! path.
Proof.
  intros H1 H2. unfold stream_ollama_response, try_except, bind.
  pose proof (read_response_pure (http w) σ) as Hp.
  destruct (read_response (http w) σ) as [[c | e] σ0]; cbn [snd] in Hp; subst σ0;
    [| done].
  pose proof (log_response_frame (now w) message c σ path H1 H2) as Hl.
  by destruct (log_response (now w) message c σ) as [[s | e] σ'].
Qed.

Lemma execute_frame (py_str : pyobj -> str) (exn_str : exn -> str) (w : world)
    (task : str) (σ : fs) (path : str) :
  path <> path_join LOG_DIR INTERPRETER_LOG ->
  snd (execute_with_interpreter py_str exn_str w task σ) !! path = σ !! path.
Proof.
  intros H1. unfold execute_with_interpreter, try_except, bind.
  destruct (chat w) as [e | v]; [done |]. unfold ret at 1.
  pose proof (append_frame_snd INTERPRETER_LOG
                (log_entry (now w) task (normalize_result py_str v)) σ path H1) as Ha.
  by destruct (append_to_json_log INTERPRETER_LOG _ σ) as [[[] | e] σ'].
Qed.

Lemma process_message_state (lower : str -> str) (py_str : pyobj -> str)
    (exn_str : exn -> str) (w : world) (message : str) (force : bool) (σ : fs) :
  snd (process_message lower py_str exn_str w message force σ)
  = match routing_decision lower message force with
    | Execution => snd (execute_with_interpreter py_str exn_str w message σ)
    | Generation => snd (stream_ollama_response exn_str w message σ)
    end.
Proof.
  unfold process_message. destruct (routing_decision lower message force); [done |].
  unfold bind. by destruct (stream_ollama_response exn_str w message σ) as [[s | e] σ'].
Qed.

(** X6.  Whatever the backends answer and whatever the files hold, the
    code of a call writes no file but its logs: the decoder none but
    the clean and the raw log, the adapter none but the execution log,
    and [process_message] none but these three.  (What the code that
    Open Interpreter runs for a task does to the files is not part of
    the model.) *)
Theorem calls_touch_only_their_logs (lower : str -> str) (py_str : pyobj -> str)
    (exn_str : exn -> str) (w : world) (message : str) (force : bool) (σ : fs)
    (path : str) :
  (path <> path_join LOG_DIR CLEAN_LOG -> path <> path_join LOG_DIR RAW_LOG ->
   snd (stream_ollama_response exn_str w message σ) !! path = σ !! path)
  /\ (path <> path_join LOG_DIR INTERPRETER_LOG ->
      snd (execute_with_interpreter py_str exn_str w message σ) !! path = σ !! path)
  /\ (path ∉ log_paths ->
      snd (process_message lower py_str exn_str w message force σ) !! path
      = σ !! path).
Proof.
  split_and!.
  - apply stream_frame.
  - apply execute_frame.
  - intros Hn. unfold log_paths in Hn.
    apply not_elem_of_cons in Hn as [H1 Hn].
    apply not_elem_of_cons in Hn as [H2 Hn].
    apply not_elem_of_cons in Hn as [H3 _].
    rewrite process_message_state. destruct (routing_decision lower message force).
    + by apply execute_frame.
    + by apply stream_frame.
Qed.

Lemma calls_touch_only_their_logs_witness :
  let w := World (lit "2026-01-01 00:00:00") (Response 200 [bq "{'response':'Hello'}"] None)
                 (ChatReturned (PyList [])) in
  let σ : fs := {[ lit "notes.txt" := File (lit "to do") true ]} in
  snd (process_message lower_ascii str_of_value str_of_exn w (lit "hello")
         false σ) !! lit "notes.txt"
  = Some (File (lit "to do") true).
Proof.
  intros w σ.
  etransitivity.
  - apply (proj2 (proj2 (calls_touch_only_their_logs lower_ascii str_of_value
                           str_of_exn w (lit "hello") false σ
                           (lit "notes.txt")))).
    unfold log_paths.
    repeat (apply not_elem_of_cons; split; [discriminate |]). apply not_elem_of_nil.
  - reflexivity.
Defined.

(** X7.  A message routed to execution makes no request on the
    agent's session: what [process_message] returns and writes does not
    depend on the HTTP exchange, and every file but the execution log
    stays as it was.  A message routed to generation never reaches
    [interpreter.chat]: the result does not depend on what it would do,
    and every file but the clean and the raw log stays as it was. *)
Theorem router_keeps_backends_apart (lower : str -> str) (py_str : pyobj -> str)
    (exn_str : exn -> str) (w : world) (message : str) (force : bool) (σ : fs) :
  match routing_decision lower message force with
  | Execution =>
      (forall h,
         process_message lower py_str exn_str (World (now w) h (chat w)) message force σ
         = process_message lower py_str exn_str w message force σ)
      /\ forall path, path <> path_join LOG_DIR INTERPRETER_LOG ->
           snd (process_message lower py_str exn_str w message force σ) !! path
           = σ !! path
  | Generation =>
      (forall c,
         process_message lower py_str exn_str (World (now w) (http w) c) message force σ
         = process_message lower py_str exn_str w message force σ)
      /\ forall path,
           path <> path_join LOG_DIR CLEAN_LOG -> path <> path_join LOG_DIR RAW_LOG ->
           snd (process_message lower py_str exn_str w message force σ) !! path
           = σ !! path
  end.
Proof.
  pose proof (process_message_state lower py_str exn_str w message force σ) as Hs.
  unfold process_message in *.
  destruct (routing_decision lower message force); split.
  - done.
  - intros path Hp. by apply execute_frame.
  - done.
  - intros path H1 H2. rewrite Hs. by apply stream_frame.
Qed.

(** What an append does is decided by the log's own file: a fault with
    nothing written, or the file rewritten. *)
Lemma append_local (filename : str) (data : pyobj) (σ : fs) :
  exists (r : result unit) (upd : option file),
    forall σ2 : fs,
      σ2 !! path_join LOG_DIR filename = σ !! path_join LOG_DIR filename ->
      append_to_json_log filename data σ2
      = (r, match upd with
            | Some f => <[path_join LOG_DIR filename := f]> σ2
            | None => σ2
            end).
Proof.
  destruct (σ !! path_join LOG_DIR filename) as [f|] eqn:Hf.
  - destruct (accessible f) eqn:Hacc.
    + destruct (json_loads (contents f)) as [v|] eqn:Hv.
      * assert (Hlist : (exists l, v = PyList l) \/ forall l, v <> PyList l).
        { destruct v; eauto. }
        destruct Hlist as [[l ->] | Hnl].
        -- eexists _, (Some _). intros σ2 H2. by eapply append_existing.
        -- eexists _, None. intros σ2 H2. by eapply append_not_a_list.
      * eexists _, None. intros σ2 H2. by eapply append_unreadable.
    + eexists _, None. intros σ2 H2. by eapply append_denied.
  - eexists _, (Some _). intros σ2 H2. by apply append_fresh.
Qed.

(** X8.  Appends to two different logs do not interfere: each returns
    or raises what it does on its own, whichever comes first, and the
    files are the same after both in either order. *)
Theorem appends_to_distinct_logs_commute (a b : str) (x y : pyobj) (σ : fs) :
  a <> b ->
  let after_a := snd (append_to_json_log a x σ) in
  let after_b := snd (append_to_json_log b y σ) in
  fst (append_to_json_log b y after_a) = fst (append_to_json_log b y σ)
  /\ fst (append_to_json_log a x after_b) = fst (append_to_json_log a x σ)
  /\ snd (append_to_json_log b y after_a) = snd (append_to_json_log a x after_b).
Proof.
  intros Hne after_a after_b.
  assert (Hp : path_join LOG_DIR a <> path_join LOG_DIR b).
  { intros Heq. by apply log_path_inj in Heq. }
  destruct (append_local a x σ) as (r1 & u1 & H1).
  destruct (append_local b y σ) as (r2 & u2 & H2).
  assert (Ha : after_a !! path_join LOG_DIR b = σ !! path_join LOG_DIR b).
  { unfold after_a. rewrite H1 by done. cbn [snd].
    destruct u1; [by rewrite lookup_insert_ne | done]. }
  assert (Hb : after_b !! path_join LOG_DIR a = σ !! path_join LOG_DIR a).
  { unfold after_b. rewrite H2 by done. cbn [snd].
    destruct u2; [by rewrite lookup_insert_ne | done]. }
  rewrite (H2 after_a Ha), (H1 after_b Hb), (H1 σ eq_refl), (H2 σ eq_refl).
  split_and!; [done | done |]. cbn [snd fst].
  unfold after_a, after_b. rewrite (H1 σ eq_refl), (H2 σ eq_refl). cbn [snd].
  destruct u1, u2; try done. by rewrite insert_insert_ne.
Qed.

Lemma appends_to_distinct_logs_commute_witness :
  let e := log_entry (lit "2026-01-01 00:00:00") (lit "hi") (PyStr (lit "Hello")) in
  let σ : fs := {[ path_join LOG_DIR RAW_LOG := File (lit "{}") true ]} in
  snd (append_to_json_log RAW_LOG e (snd (append_to_json_log CLEAN_LOG e σ)))
  = snd (append_to_json_log CLEAN_LOG e (snd (append_to_json_log RAW_LOG e σ)))
  /\ fst (append_to_json_log RAW_LOG e (snd (append_to_json_log CLEAN_LOG e σ)))
     = Raise (AttributeError (lit "dict") (lit "append")).
Proof.
  intros e σ.
  destruct (appends_to_distinct_logs_commute CLEAN_LOG RAW_LOG e e σ)
    as (Hr & _ & Hs); [discriminate |].
  split; [exact Hs |]. rewrite Hr. reflexivity.
Defined.

(** * Logs only grow *)

Lemma holds_entries_unique (σ : fs) (filename : str) (a b : list pyobj) :
  holds_entries σ filename a -> holds_entries σ filename b -> a = b.
Proof.
  unfold holds_entries. destruct (σ !! _) as [f|]; [| by intros -> ->].
  intros [_ Ha] [_ Hb]. congruence.
Qed.

(** Whatever an append does, a log keeps the entries it held; the log
    appended to gains the entry when the append returns. *)
Lemma append_keeps_entries (filename : str) (data : pyobj) (σ : fs)
    (log : str) (old : list pyobj) :
  well_formed data = true ->
  holds_entries σ log old ->
  exists added,
    holds_entries (snd (append_to_json_log filename data σ)) log (old ++ added)
    /\ (length added <= 1)%nat.
Proof.
  intros Hdata Hold.
  destruct (append_to_json_log filename data σ) as [r σ'] eqn:Happ. cbn [snd].
  destruct (decide (log = filename)) as [-> | Hne].
  - destruct r as [[] | e].
    + destruct (append_grows _ _ _ _ Happ) as (old' & Hold' & ->).
      rewrite (holds_entries_unique _ _ _ _ Hold Hold').
      exists [data]. split; [| done].
      apply holds_entries_written, Forall_app. split.
      * by eapply holds_entries_well_formed.
      * by constructor.
    + rewrite (append_raise_unchanged _ _ _ _ _ Happ).
      exists []. rewrite app_nil_r. split; [done | cbn; lia].
  - exists []. rewrite app_nil_r. split; [| cbn; lia].
    unfold holds_entries in *.
    rewrite (append_frame _ _ _ _ _ _ Happ); [done |].
    intros Heq. by apply log_path_inj in Heq.
Qed.

Lemma log_entry_well_formed (timestamp user : str) (response : pyobj) :
  well_formed response = true ->
  well_formed (log_entry timestamp user response) = true.
Proof.
  intros Hr. unfold log_entry. cbn [well_formed map fst forallb snd].
  rewrite Hr. rewrite bool_decide_eq_true_2; [done |].
  assert (Hkeys : bool_decide (NoDup [lit "timestamp"; lit "user"; lit "response"]) = true)
    by reflexivity.
  by apply bool_decide_eq_true in Hkeys.
Qed.

Lemma dict_get_well_formed (k : str) (d : list (str * pyobj)) (default : pyobj) :
  forallb (fun kv => well_formed (snd kv)) d = true ->
  well_formed default = true ->
  well_formed (dict_get k d default) = true.
Proof.
  intros Hd Hdef. induction d as [|[k' v] d IH]; [done |].
  cbn [forallb snd] in Hd. apply andb_true_iff in Hd as [Hv Hd].
  cbn [dict_get]. destruct (str_eqb k k'); [done | by apply IH].
Qed.

Lemma last_in (l : list pyobj) (x : pyobj) : In (List.last l x) (x :: l).
Proof.
  revert x. induction l as [|y l IH]; intros x; [by left |].
  right. rewrite last_cons_default. apply IH.
Qed.

Lemma normalize_result_well_formed (py_str : pyobj -> str) (result : pyobj) :
  well_formed result = true ->
  well_formed (normalize_result py_str result) = true.
Proof.
  intros Hwf. unfold normalize_result.
  destruct result as [| | | | |l|d]; try done. destruct l as [|x l]; [done |].
  assert (Hlast : well_formed (List.last l x) = true).
  { cbn [well_formed] in Hwf. rewrite forallb_forall in Hwf.
    apply Hwf. apply last_in. }
  destruct (List.last l x) as [| | | | |l'|d]; try done.
  cbn [well_formed] in Hlast. apply andb_true_iff in Hlast as [_ Hd].
  unfold py_or. repeat case_match; try done; by apply dict_get_well_formed.
Qed.

Lemma stream_keeps_entries (exn_str : exn -> str) (w : world) (message : str)
    (σ : fs) (log : str) (old : list pyobj) :
  holds_entries σ log old ->
  exists added,
    holds_entries (snd (stream_ollama_response exn_str w message σ)) log (old ++ added)
    /\ (length added <= 1)%nat.
Proof.
  intros Hold. unfold stream_ollama_response, try_except, bind.
  pose proof (read_response_pure (http w) σ) as Hp.
  destruct (read_response (http w) σ) as [[c | e] σ0]; cbn [snd] in Hp; subst σ0.
  2: { exists []. rewrite app_nil_r. split; [done | cbn; lia]. }
  unfold log_response, bind, ret.
  set (clean_data := log_entry (now w) message (PyStr (filter_response c))).
  set (raw_data := log_entry (now w) message (PyStr (strip c))).
  destruct (decide (log = RAW_LOG)) as [-> | Hraw].
  - (* the clean append leaves the raw log alone *)
    destruct (append_to_json_log CLEAN_LOG clean_data σ) as [r1 σ1] eqn:H1.
    assert (Hold1 : holds_entries σ1 RAW_LOG old).
    { unfold holds_entries in *.
      by rewrite (append_frame _ _ _ _ _ _ H1) by discriminate. }
    destruct r1 as [[] | e];
      [| exists []; rewrite app_nil_r; split; [done | cbn; lia]].
    destruct (append_keeps_entries RAW_LOG raw_data σ1 RAW_LOG old eq_refl Hold1)
      as (added & Hadd & Hlen).
    exists added. split; [| done].
    by destruct (append_to_json_log RAW_LOG raw_data σ1) as [[[] | e] σ2].
  - (* the raw append leaves every other log alone *)
    destruct (append_keeps_entries CLEAN_LOG clean_data σ log old eq_refl Hold)
      as (added & Hadd & Hlen).
    exists added. split; [| done].
    destruct (append_to_json_log CLEAN_LOG clean_data σ) as [[[] | e] σ1];
      cbn [snd] in Hadd; [| done].
    destruct (append_to_json_log RAW_LOG raw_data σ1) as [r2 σ2] eqn:H2.
    assert (Hsame : σ2 !! path_join LOG_DIR log = σ1 !! path_join LOG_DIR log).
    { apply (append_frame _ _ _ _ _ _ H2). intros Heq. by apply log_path_inj in Heq. }
    unfold holds_entries in *. destruct r2 as [[] | e]; cbn [snd]; by rewrite Hsame.
Qed.

Lemma execute_keeps_entries (py_str : pyobj -> str) (exn_str : exn -> str)
    (w : world) (task : str) (σ : fs) (log : str) (old : list pyobj) :
  well_formed_reply w ->
  holds_entries σ log old ->
  exists added,
    holds_entries (snd (execute_with_interpreter py_str exn_str w task σ)) log
      (old ++ added)
    /\ (length added <= 1)%nat.
Proof.
  unfold well_formed_reply. intros Hw Hold.
  unfold execute_with_interpreter, try_except, bind.
  destruct (chat w) as [e | v].
  { exists []. rewrite app_nil_r. split; [done | cbn; lia]. }
  unfold ret at 1.
  destruct (append_keeps_entries INTERPRETER_LOG
              (log_entry (now w) task (normalize_result py_str v)) σ log old)
    as (added & Hadd & Hlen); [| done |].
  { by apply log_entry_well_formed, normalize_result_well_formed. }
  exists added. split; [| done].
  by destruct (append_to_json_log INTERPRETER_LOG _ σ) as [[[] | e] σ'].
Qed.

(** * The session *)

Lemma create_session_idempotent (self : agent) :
  create_session (create_session self) = create_session self.
Proof. unfold create_session. by destruct self as [u m [s|]]. Qed.

(** With a session that is not closed, the two methods are the decoder
    and the router of the sections above, run on what the world
    delivers. *)
Lemma stream_on_open_session (exn_str : exn -> str) (self : agent) (w : world)
    (message : str) :
  session self <> Some SessionClosed ->
  snd (stream_ollama_response_of exn_str self w message)
  = stream_ollama_response exn_str w message.
Proof.
  intros Hs. unfold stream_ollama_response_of, create_session. cbn [snd].
  destruct self as [u m [[]|]], w; cbn in *; done.
Qed.

Lemma process_message_on_open_session (lower : str -> str) (py_str : pyobj -> str)
    (exn_str : exn -> str) (self : agent) (w : world) (message : str) (force : bool) :
  session self <> Some SessionClosed ->
  snd (process_message_of lower py_str exn_str self w message force)
  = process_message lower py_str exn_str w message force.
Proof.
  intros Hs. unfold process_message_of, process_message.
  destruct (routing_decision lower message force); [done |].
  pose proof (stream_on_open_session exn_str self w message Hs) as Hopen.
  destruct (stream_ollama_response_of exn_str self w message) as [self' m].
  cbn [snd] in *. by subst m.
Qed.

(** X9.  [create_session] opens a session only when the agent has
    none: a second call changes nothing, and [close_session] on an agent
    without a session does nothing.  A closed session stays in its
    attribute, so it is never replaced: on an agent whose session has
    been closed, [stream_ollama_response] keeps the closed session,
    returns ["Error connecting to Ollama: "] followed by the text of the
    fault of the request, and writes no file, whatever the world would
    have delivered. *)
Theorem closed_session_is_not_reopened (exn_str : exn -> str) (self : agent)
    (w : world) (message : str) (σ : fs) :
  let closed := close_session (create_session self) in
  create_session (create_session self) = create_session self
  /\ session (create_session self) <> None
  /\ (session self = None -> close_session self = self)
  /\ session closed = Some SessionClosed
  /\ create_session closed = closed
  /\ fst (stream_ollama_response_of exn_str closed w message) = closed
  /\ snd (stream_ollama_response_of exn_str closed w message) σ
     = (Return (lit "Error connecting to Ollama: "
                ++ exn_str (ExternalError (lit "Session is closed"))), σ).
Proof.
  intros closed. unfold closed, stream_ollama_response_of, create_session, close_session.
  destruct self as [u m [s|]]; cbn; split_and!; try done.
  all: by intros ->.
Qed.

(** * The chat loop *)

Lemma is_answer_answer (py_str : pyobj -> str) (result : pyobj) :
  is_answer (answer py_str result) = true.
Proof. unfold is_answer, answer. apply startswith_spec. eauto. Qed.

Lemma not_a_log_path (path : str) :
  path ∉ log_paths ->
  path <> path_join LOG_DIR CLEAN_LOG /\ path <> path_join LOG_DIR RAW_LOG
  /\ path <> path_join LOG_DIR INTERPRETER_LOG.
Proof.
  intros Hn. unfold log_paths in Hn.
  apply not_elem_of_cons in Hn as [H1 Hn].
  apply not_elem_of_cons in Hn as [H2 Hn].
  by apply not_elem_of_cons in Hn as [H3 _].
Qed.

Lemma no_request_no_entry (line : str) (st : chat_state) :
  forall log old, holds_entries (files st) log old ->
    exists added : list pyobj,
      holds_entries (files st) log (old ++ added)
      /\ (length added <= if is_request line then 1 else 0)%nat.
Proof.
  intros log old Hold. exists []. rewrite app_nil_r. split; [done |].
  cbn [length]. lia.
Qed.

(** One turn that does not end the chat. *)
Lemma chat_loop_turn (lower : str -> str) (py_str : pyobj -> str)
    (exn_str : exn -> str) (line : str) (w : world) (st : chat_state) :
  is_quit line = false ->
  exists st',
    (forall rest at_end,
       chat_loop lower py_str exn_str ((line, w) :: rest) at_end st
       = chat_loop lower py_str exn_str rest at_end st')
    /\ turn_effect lower line w st st'.
Proof.
  unfold turn_effect, is_quit, goes_to_decoder. intros Hq.
  pose proof (no_request_no_entry line st) as Hnone. unfold is_request in Hnone |- *.
  destruct (read_command line) as [| | |task|msg|] eqn:Hcmd; [done | | | | |].
  - exists (print HELP st). split_and!; try done.
    + intros rest at_end. cbn [chat_loop]. by rewrite Hcmd.
    + by exists [HELP].
  - exists (print (model_info py_str (agent_of st)) st). split_and!; try done.
    + intros rest at_end. cbn [chat_loop]. by rewrite Hcmd.
    + by exists [model_info py_str (agent_of st)].
  - destruct (execute_with_interpreter py_str exn_str w task (files st))
      as [[r | e] σ'] eqn:Hex.
    2: { destruct (try_except_returns
                     (result <- match chat w with
                                | ChatRaised e => raise e
                                | ChatReturned v => ret v
                                end ;;
                      _ <- append_to_json_log INTERPRETER_LOG
                             (log_entry (now w) task (normalize_result py_str result)) ;;
                      ret (normalize_result py_str result))
                     (fun e => PyStr (lit "[Error] Interpreter failed: " ++ exn_str e))
                     (files st)) as (r' & σ'' & Hret).
         unfold execute_with_interpreter in Hex. congruence. }
    exists (print (answer py_str r) (ChatState (agent_of st) (printed st) σ')).
    split_and!; try done.
    + intros rest at_end. cbn [chat_loop]. by rewrite Hcmd, Hex.
    + intros path Hn. destruct (not_a_log_path path Hn) as (_ & _ & H3).
      cbn [print files].
      pose proof (execute_frame py_str exn_str w task (files st) path H3) as Hf.
      by rewrite Hex in Hf.
    + intros Hw log old Hold. cbn [print files].
      pose proof (execute_keeps_entries py_str exn_str w task (files st) log old Hw Hold)
        as Hkeep.
      by rewrite Hex in Hkeep.
    + exists [answer py_str r]. split_and!; [done | | done].
      cbn [List.filter]. by rewrite is_answer_answer.
  - unfold process_message_of.
    destruct (routing_decision lower msg false) eqn:Hroute.
    + destruct (execute_with_interpreter py_str exn_str w msg (files st))
        as [[r | e] σ'] eqn:Hex.
      2: { destruct (try_except_returns
                       (result <- match chat w with
                                  | ChatRaised e => raise e
                                  | ChatReturned v => ret v
                                  end ;;
                        _ <- append_to_json_log INTERPRETER_LOG
                               (log_entry (now w) msg (normalize_result py_str result)) ;;
                        ret (normalize_result py_str result))
                       (fun e => PyStr (lit "[Error] Interpreter failed: " ++ exn_str e))
                       (files st)) as (r' & σ'' & Hret).
           unfold execute_with_interpreter in Hex. congruence. }
      exists (print (answer py_str r) (ChatState (agent_of st) (printed st) σ')).
      split_and!; try done.
      * intros rest at_end. cbn [chat_loop]. rewrite Hcmd.
        unfold process_message_of. by rewrite Hroute, Hex.
      * intros path Hn. destruct (not_a_log_path path Hn) as (_ & _ & H3).
        cbn [print files].
        pose proof (execute_frame py_str exn_str w msg (files st) path H3) as Hf.
        by rewrite Hex in Hf.
      * intros Hw log old Hold. cbn [print files].
        pose proof (execute_keeps_entries py_str exn_str w msg (files st) log old Hw Hold)
          as Hkeep.
        by rewrite Hex in Hkeep.
      * exists [answer py_str r]. split_and!; [done | | done].
        cbn [List.filter]. by rewrite is_answer_answer.
    + set (self := create_session (agent_of st)).
      set (w' := World (now w) (session_post (session self) (http w)) (chat w)).
      destruct (stream_ollama_response exn_str w' msg (files st))
        as [[s | e] σ'] eqn:Hex.
      2: { destruct (try_except_returns
                       (complete_response <- read_response (http w') ;;
                        log_response (now w') msg complete_response)
                       (fun e => lit "Error connecting to Ollama: " ++ exn_str e)
                       (files st)) as (s' & σ'' & Hret).
           unfold stream_ollama_response in Hex. congruence. }
      exists (print (answer py_str (PyStr s)) (ChatState self (printed st) σ')).
      split_and!; try done.
      * intros rest at_end. cbn [chat_loop]. rewrite Hcmd.
        unfold process_message_of. rewrite Hroute.
        unfold stream_ollama_response_of. fold self. fold w'.
        unfold bind. by rewrite Hex.
      * intros path Hn. destruct (not_a_log_path path Hn) as (H1 & H2 & _).
        cbn [print files].
        pose proof (stream_frame exn_str w' msg (files st) path H1 H2) as Hf.
        by rewrite Hex in Hf.
      * intros _ log old Hold. cbn [print files].
        pose proof (stream_keeps_entries exn_str w' msg (files st) log old Hold)
          as Hkeep.
        by rewrite Hex in Hkeep.
      * exists [answer py_str (PyStr s)]. split_and!; [done | | done].
        cbn [List.filter]. by rewrite is_answer_answer.
  - exists st. split_and!; try done.
    + intros rest at_end. cbn [chat_loop]. by rewrite Hcmd.
    + exists []. by rewrite app_nil_r.
Qed.

(** The whole loop. *)
Lemma chat_loop_summary (lower : str -> str) (py_str : pyobj -> str)
    (exn_str : exn -> str) (turns : list (str * world)) (at_end : exn)
    (st : chat_state) :
  let lines := map fst turns in
  exists st',
    chat_loop lower py_str exn_str turns at_end st
    = (if existsb is_quit lines then Break else Raised at_end, st')
    /\ (forall path, path ∉ log_paths -> files st' !! path = files st !! path)
    /\ (List.filter is_request (lines_read lines) = [] -> files st' = files st)
    /\ (Forall (fun turn => well_formed_reply (snd turn)) turns ->
        forall log old, holds_entries (files st) log old ->
          exists added,
            holds_entries (files st') log (old ++ added)
            /\ (length added
                <= length (List.filter is_request (lines_read lines)))%nat)
    /\ (exists out,
          printed st' = printed st ++ out
          /\ length (List.filter is_answer out)
             = length (List.filter is_request (lines_read lines))
          /\ List.filter is_loop_failure out = [])
    /\ agent_of st'
       = if existsb (goes_to_decoder lower) (lines_read lines)
         then create_session (agent_of st) else agent_of st.
Proof.
  revert st. induction turns as [|[line w] rest IH]; intros st lines.
  - exists st. split_and!; try done.
    + intros _ log old Hold. exists []. by rewrite app_nil_r.
    + exists []. by rewrite app_nil_r.
  - subst lines. cbn [map fst existsb lines_read].
    destruct (is_quit line) eqn:Hq.
    + exists st. split_and!; try done.
      * cbn [chat_loop]. unfold is_quit in Hq.
        by destruct (read_command line).
      * intros _ log old Hold. exists []. by rewrite app_nil_r.
      * exists []. by rewrite app_nil_r.
    + destruct (chat_loop_turn lower py_str exn_str line w st Hq)
        as (st1 & Hstep & Hframe1 & Hsame1 & Hkeep1
            & (out1 & Hout1 & Hans1 & Hfail1) & Hagent1).
      destruct (IH st1)
        as (st2 & Hloop & Hframe2 & Hsame2 & Hkeep2
            & (out2 & Hout2 & Hans2 & Hfail2) & Hagent2).
      exists st2. split_and!.
      * rewrite Hstep. exact Hloop.
      * intros path Hn. rewrite Hframe2 by done. by apply Hframe1.
      * cbn [List.filter]. destruct (is_request line); [done |].
        intros Hnone. rewrite Hsame2 by done. by apply Hsame1.
      * intros Hwf log old Hold. apply Forall_cons in Hwf as [Hw Hwf].
        destruct (Hkeep1 Hw log old Hold) as (added1 & Hadd1 & Hlen1).
        destruct (Hkeep2 Hwf log _ Hadd1) as (added2 & Hadd2 & Hlen2).
        exists (added1 ++ added2). split; [by rewrite app_assoc |].
        rewrite length_app. cbn [List.filter].
        destruct (is_request line); cbn [length]; lia.
      * exists (out1 ++ out2). split_and!.
        -- by rewrite Hout2, Hout1, app_assoc.
        -- rewrite List.filter_app, length_app, Hans1, Hans2.
           cbn [List.filter orb]. by destruct (is_request line).
        -- by rewrite List.filter_app, Hfail1, Hfail2.
      * rewrite Hagent2, Hagent1. cbn [existsb].
        destruct (goes_to_decoder lower line); cbn [orb]; [| done].
        rewrite create_session_idempotent.
        by destruct (existsb (goes_to_decoder lower) (lines_read (map fst rest))).
Qed.

(** * The lines typed at the prompt *)

(** A text that ends with no white space: its [strip] is its [lstrip],
    and is not empty. *)
Lemma strip_right_trimmed (u : str) (c : N) :
  is_space c = false ->
  strip (u ++ [c]) = lstrip (u ++ [c]) /\ lstrip (u ++ [c]) <> [].
Proof.
  intros Hc. destruct (lstrip_split (u ++ [c])) as (pad & Hs & Hpad).
  assert (Hne : lstrip (u ++ [c]) <> []).
  { intros Hnil. apply lstrip_nil in Hnil.
    apply Forall_app in Hnil as [_ Hnil]. inversion Hnil; congruence. }
  split; [| done]. unfold strip.
  destruct (lstrip (u ++ [c])) as [|c' t] using rev_ind; [done |].
  rewrite app_assoc in Hs. apply app_inj_tail in Hs as [_ <-].
  by apply rstrip_fixed.
Qed.

Lemma read_command_message (line msg : str) :
  read_command line = CmdMessage msg ->
  msg = strip line /\ msg <> []
  /\ (msg ∉ [lit "/quit"; lit "exit"; lit "/help"; lit "/model"])
  /\ startswith (lit "/oi ") msg = false.
Proof.
  unfold read_command. cbn [existsb]. unfold str_eqb.
  destruct (bool_decide (strip line = lit "/quit")) eqn:H1; [done |].
  destruct (bool_decide (strip line = lit "exit")) eqn:H2; [done |].
  destruct (bool_decide (strip line = lit "/help")) eqn:H3; [done |].
  destruct (bool_decide (strip line = lit "/model")) eqn:H4; [done |].
  destruct (startswith (lit "/oi ") (strip line)) eqn:H5; [done |].
  cbn [orb]. destruct (strip line) as [|c t] eqn:Hs; [done |].
  intros [= <-]. split_and!; [done | done | | done].
  apply bool_decide_eq_false in H1, H2, H3, H4.
  intros Hin. repeat (apply elem_of_cons in Hin as [Hin | Hin]; [done |]).
  by apply elem_of_nil in Hin.
Qed.

Lemma read_command_task (line task : str) :
  read_command line = CmdInterpreter task ->
  exists rest,
    strip line = lit "/oi " ++ rest /\ task = strip rest.
Proof.
  unfold read_command.
  destruct (existsb _ _); [done |].
  destruct (str_eqb _ (lit "/help")); [done |].
  destruct (str_eqb _ (lit "/model")); [done |].
  destruct (startswith (lit "/oi ") (strip line)) eqn:H5.
  - intros [= <-]. apply startswith_spec in H5 as [rest Hrest].
    exists rest. split; [done |]. by rewrite Hrest.
  - by destruct (strip line).
Qed.

Lemma read_command_quit (line : str) :
  read_command line = CmdQuit <-> strip line = lit "/quit" \/ strip line = lit "exit".
Proof.
  unfold read_command. cbn [existsb]. unfold str_eqb.
  destruct (bool_decide (strip line = lit "/quit")) eqn:H1.
  { apply bool_decide_eq_true in H1. cbn [orb]. split; auto. }
  destruct (bool_decide (strip line = lit "exit")) eqn:H2.
  { apply bool_decide_eq_true in H2. cbn [orb]. split; auto. }
  apply bool_decide_eq_false in H1, H2. cbn [orb]. split.
  - destruct (bool_decide _); [done |]. destruct (bool_decide _); [done |].
    destruct (startswith _ _); [done |]. by destruct (strip line).
  - intros [? | ?]; done.
Qed.

Lemma read_command_nothing (line : str) :
  read_command line = CmdNothing <-> Forall (fun c => is_space c = true) line.
Proof.
  rewrite <- strip_nil. unfold read_command. split.
  - destruct (existsb _ _); [done |].
    destruct (str_eqb _ (lit "/help")); [done |].
    destruct (str_eqb _ (lit "/model")); [done |].
    destruct (startswith _ _); [done |]. by destruct (strip line).
  - by intros ->.
Qed.

(** X10.  What the loop makes of a typed line.  A task forced with
    [/oi] is never empty and has no white space at either end: the
    stripped line is ["/oi "], white space, and the task.  A message
    handed to the router is the stripped line, is not empty, has no
    white space at either end, is none of the four commands and does not
    start with ["/oi "].  A line is dropped without a word exactly when
    it is empty or white space; it ends the chat exactly when, stripped,
    it is ["/quit"] or ["exit"]. *)
Theorem loop_hands_over_trimmed_text (line : str) :
  (forall task, read_command line = CmdInterpreter task ->
     task <> [] /\ trimmed task
     /\ exists pad,
          strip line = lit "/oi " ++ pad ++ task
          /\ Forall (fun c => is_space c = true) pad)
  /\ (forall msg, read_command line = CmdMessage msg ->
        msg = strip line /\ msg <> [] /\ trimmed msg
        /\ (msg ∉ [lit "/quit"; lit "exit"; lit "/help"; lit "/model"])
        /\ startswith (lit "/oi ") msg = false)
  /\ (read_command line = CmdNothing <-> Forall (fun c => is_space c = true) line)
  /\ (read_command line = CmdQuit
      <-> strip line = lit "/quit" \/ strip line = lit "exit").
Proof.
  split_and!.
  - intros task Hcmd. apply read_command_task in Hcmd as (rest & Hline & ->).
    destruct (strip_trimmed line) as [_ Hlast]. rewrite Hline in Hlast.
    destruct rest as [|c u _] using rev_ind; [done |].
    rewrite app_assoc, rev_app_distr in Hlast. cbn [rev app] in Hlast.
    destruct (strip_right_trimmed u c Hlast) as [Hstrip Hne].
    split_and!.
    + by rewrite Hstrip.
    + apply strip_trimmed.
    + destruct (lstrip_split (u ++ [c])) as (pad & Hs & Hpad).
      exists pad. rewrite Hstrip. by rewrite <- Hs.
  - intros msg Hcmd. destruct (read_command_message line msg Hcmd) as (-> & ? & ? & ?).
    split_and!; try done. apply strip_trimmed.
  - apply read_command_nothing.
  - apply read_command_quit.
Qed.

(** * The chat as a whole *)

Lemma chat_loop_quit (lower : str -> str) (py_str : pyobj -> str)
    (exn_str : exn -> str) (before after : list (str * world)) (q : str)
    (w w' : world) (at_end at_end' : exn) (st : chat_state) :
  read_command q = CmdQuit ->
  chat_loop lower py_str exn_str (before ++ (q, w) :: after) at_end st
  = chat_loop lower py_str exn_str (before ++ [(q, w')]) at_end' st.
Proof.
  intros Hq. revert st. induction before as [|[line w0] before IH]; intros st.
  - cbn [app chat_loop]. by rewrite Hq.
  - cbn [app chat_loop]. destruct (read_command line); try apply IH; try done.
    + destruct (execute_with_interpreter _ _ _ _ _) as [[r | e] σ]; [apply IH | done].
    + destruct (process_message_of _ _ _ _ _ _ _) as [self m].
      destruct (m (files st)) as [[r | e] σ]; [apply IH | done].
Qed.

(** The agent a chat leaves behind. *)
Lemma interactive_mode_agent (lower : str -> str) (py_str : pyobj -> str)
    (exn_str : exn -> str) (turns : list (str * world)) (at_end : exn)
    (self : agent) (σ : fs) :
  agent_of (interactive_mode lower py_str exn_str turns at_end self σ)
  = close_session
      (if existsb (goes_to_decoder lower) (lines_read (map fst turns))
       then create_session self else self).
Proof.
  unfold interactive_mode.
  destruct (chat_loop_summary lower py_str exn_str turns at_end
              (print COMMANDS (print BANNER (ChatState self [] σ))))
    as (st' & Hloop & _ & _ & _ & _ & Hagent).
  rewrite Hloop. cbn [print agent_of] in Hagent.
  by destruct (existsb is_quit (map fst turns)); cbn [agent_of print]; rewrite Hagent.
Qed.

(** X11.  A line that is ["/quit"] or ["exit"] between white space ends
    the chat: the lines typed after it, the world of that turn and the
    way [input] would have ended change nothing of the agent, of what is
    printed and of the files. *)
Theorem quit_ends_the_chat (lower : str -> str) (py_str : pyobj -> str)
    (exn_str : exn -> str) (before after : list (str * world)) (q : str)
    (w w' : world) (at_end at_end' : exn) (self : agent) (σ : fs) :
  strip q = lit "/quit" \/ strip q = lit "exit" ->
  interactive_mode lower py_str exn_str (before ++ (q, w) :: after) at_end self σ
  = interactive_mode lower py_str exn_str (before ++ [(q, w')]) at_end' self σ.
Proof.
  intros Hq. apply read_command_quit in Hq. unfold interactive_mode.
  rewrite (chat_loop_quit lower py_str exn_str before after q w w' at_end at_end')
    by done.
  destruct (chat_loop _ _ _ _ _ _) as [[|e] st] eqn:Hloop; [done |].
  destruct (chat_loop_summary lower py_str exn_str (before ++ [(q, w')]) at_end'
              (print COMMANDS (print BANNER (ChatState self [] σ))))
    as (st' & Hsum & _).
  rewrite Hloop in Hsum. rewrite map_app, existsb_app in Hsum.
  cbn [map fst existsb] in Hsum. unfold is_quit at 2 in Hsum. rewrite Hq in Hsum.
  rewrite orb_true_r in Hsum. cbn [orb] in Hsum. done.
Qed.

Lemma quit_ends_the_chat_witness :
  let w := World (lit "2026-01-01 00:00:00") (Response 200 [] None)
                 (ChatReturned PyNone) in
  let eof := ExternalError (lit "EOF when reading a line") in
  interactive_mode lower_ascii str_of_value str_of_exn
    ([(lit "/help", w)] ++ (lit " /quit ", w) :: [(lit "delete all files", w)])
    eof (Agent PyNone PyNone None) ∅
  = ChatState (Agent PyNone PyNone None) [BANNER; COMMANDS; HELP] ∅.
Proof.
  intros w eof.
  etransitivity.
  - apply (quit_ends_the_chat lower_ascii str_of_value str_of_exn
             [(lit "/help", w)] [(lit "delete all files", w)] (lit " /quit ")
             w w eof eof).
    left. reflexivity.
  - reflexivity.
Defined.

(** X12.  Whatever the backends do, the loop goes on: each line read
    that is a request (a forced task or a message) is answered by
    exactly one printed ["Assistant: "] text, and no fault of a backend
    ends the chat.  The report ["[Error] Chat loop failed: "] is printed
    once, with the exception of [input], when no typed line ends the
    chat, and not at all otherwise. *)
Theorem every_request_is_answered (lower : str -> str) (py_str : pyobj -> str)
    (exn_str : exn -> str) (turns : list (str * world)) (at_end : exn)
    (self : agent) (σ : fs) :
  let lines := map fst turns in
  let st := interactive_mode lower py_str exn_str turns at_end self σ in
  length (List.filter is_answer (printed st))
  = length (List.filter is_request (lines_read lines))
  /\ List.filter is_loop_failure (printed st)
     = if existsb is_quit lines then []
       else [lit "[Error] Chat loop failed: " ++ exn_str at_end].
Proof.
  intros lines st. subst st. unfold interactive_mode.
  destruct (chat_loop_summary lower py_str exn_str turns at_end
              (print COMMANDS (print BANNER (ChatState self [] σ))))
    as (st' & Hloop & _ & _ & _ & (out & Hout & Hans & Hfail) & _).
  rewrite Hloop. fold lines in Hans |- *. cbn [print printed app] in Hout.
  assert (Hmsg : forall text,
            is_answer (lit "[Error] Chat loop failed: " ++ text) = false
            /\ is_loop_failure (lit "[Error] Chat loop failed: " ++ text) = true).
  { intros text. split; [done |]. apply startswith_spec. eauto. }
  destruct (existsb is_quit lines); cbn [printed print]; rewrite Hout.
  - change (BANNER :: COMMANDS :: out) with ([BANNER; COMMANDS] ++ out).
    rewrite !List.filter_app, Hfail. split; [| done].
    rewrite length_app, Hans. cbn [List.filter].
    replace (is_answer BANNER) with false by reflexivity.
    by replace (is_answer COMMANDS) with false by reflexivity.
  - change ((BANNER :: COMMANDS :: out) ++ [lit "[Error] Chat loop failed: " ++ exn_str at_end])
      with ([BANNER; COMMANDS] ++ out ++ [lit "[Error] Chat loop failed: " ++ exn_str at_end]).
    rewrite !List.filter_app, Hfail. cbn [List.filter].
    destruct (Hmsg (exn_str at_end)) as [-> ->]. split; [| done].
    rewrite !length_app, Hans.
    replace (is_answer BANNER) with false by reflexivity.
    replace (is_answer COMMANDS) with false by reflexivity.
    cbn [length]. lia.
Qed.

Lemma every_request_is_answered_witness :
  let w := World (lit "2026-01-01 00:00:00")
                 (PostFailed (ExternalError (lit "Cannot connect to host")))
                 (ChatRaised (ExternalError (lit "model not found"))) in
  let turns := [(lit "hello", w); (lit "/model", w); (lit "/oi list files", w)] in
  let st := interactive_mode lower_ascii str_of_value str_of_exn turns
              (ExternalError (lit "EOF when reading a line"))
              (Agent PyNone (PyStr (lit "llama3")) None) ∅ in
  length (List.filter is_answer (printed st)) = 2%nat
  /\ List.filter is_loop_failure (printed st)
     = [lit "[Error] Chat loop failed: EOF when reading a line"].
Proof.
  intros w turns st.
  destruct (every_request_is_answered lower_ascii str_of_value str_of_exn turns
              (ExternalError (lit "EOF when reading a line"))
              (Agent PyNone (PyStr (lit "llama3")) None) ∅) as [Hans Hfail].
  split.
  - etransitivity; [exact Hans | reflexivity].
  - etransitivity; [exact Hfail | reflexivity].
Defined.

(** X13.  The code of a whole chat writes no file but the three logs;
    and a chat in which no line read is a request (commands, blank
    lines) changes no file at all. *)
Theorem chat_touches_only_the_logs (lower : str -> str) (py_str : pyobj -> str)
    (exn_str : exn -> str) (turns : list (str * world)) (at_end : exn)
    (self : agent) (σ : fs) :
  let st := interactive_mode lower py_str exn_str turns at_end self σ in
  (forall path, path ∉ log_paths -> files st !! path = σ !! path)
  /\ (List.filter is_request (lines_read (map fst turns)) = [] -> files st = σ).
Proof.
  intros st. subst st. unfold interactive_mode.
  destruct (chat_loop_summary lower py_str exn_str turns at_end
              (print COMMANDS (print BANNER (ChatState self [] σ))))
    as (st' & Hloop & Hframe & Hsame & _).
  rewrite Hloop. cbn [files print] in *.
  split.
  - intros path Hn. specialize (Hframe path Hn). by destruct (existsb _ _).
  - intros Hnone. specialize (Hsame Hnone). by destruct (existsb _ _).
Qed.

Lemma chat_touches_only_the_logs_witness :
  let w := World (lit "2026-01-01 00:00:00") (Response 200 [bq "{'response':'Hello'}"] None)
                 (ChatReturned (PyList [])) in
  let turns := [(lit "hello", w); (lit "/oi what time is it", w); (lit "exit", w)] in
  let σ : fs := {[ lit "notes.txt" := File (lit "to do") true ]} in
  files (interactive_mode lower_ascii str_of_value str_of_exn turns (ExternalError [])
           (Agent PyNone PyNone None) σ) !! lit "notes.txt"
  = Some (File (lit "to do") true).
Proof.
  intros w turns σ.
  destruct (chat_touches_only_the_logs lower_ascii str_of_value str_of_exn turns
              (ExternalError []) (Agent PyNone PyNone None) σ) as [Hframe _].
  etransitivity.
  - apply Hframe. unfold log_paths.
    repeat (apply not_elem_of_cons; split; [discriminate |]). apply not_elem_of_nil.
  - reflexivity.
Defined.



(** X15.  [interactive_mode] never leaves an open session behind: the
    agent at the end is the agent at the start, with a session opened
    if a line read went to the streaming decoder, and closed in any
    case, whether the loop ended by a command or by an exception; its
    URL and model are unchanged.  For [main], which starts without a
    session, the session at the end is a closed one if a line went to
    the decoder and none otherwise. *)
Theorem chat_leaves_no_open_session (lower : str -> str) (py_str : pyobj -> str)
    (exn_str : exn -> str) (turns : list (str * world)) (at_end : exn)
    (self : agent) (σ : fs) :
  let final := agent_of (interactive_mode lower py_str exn_str turns at_end self σ) in
  let streamed := existsb (goes_to_decoder lower) (lines_read (map fst turns)) in
  final = close_session (if streamed then create_session self else self)
  /\ session final <> Some SessionOpen
  /\ ollama_url final = ollama_url self
  /\ ollama_model final = ollama_model self
  /\ forall OLLAMA_BASE_URL OLLAMA_MODEL,
       session (agent_of (main lower py_str exn_str OLLAMA_BASE_URL OLLAMA_MODEL
                            turns at_end σ))
       = if streamed then Some SessionClosed else None.
Proof.
  intros final streamed. subst final. unfold main. rewrite interactive_mode_agent.
  fold streamed. split_and!.
  - done.
  - destruct streamed; unfold close_session, create_session;
      by destruct self as [u m [[]|]].
  - destruct streamed; unfold close_session, create_session;
      by destruct self as [u m [[]|]].
  - destruct streamed; unfold close_session, create_session;
      by destruct self as [u m [[]|]].
  - intros OLLAMA_BASE_URL OLLAMA_MODEL. rewrite interactive_mode_agent.
    fold streamed. by destruct streamed.
Qed.

(** A chat of six lines on an empty log directory: help, a blank line,
    a forced task, a message for the streaming decoder, [exit] between
    blanks, and a line that is never read. *)
Example sample_chat :
  let w := World (lit "2026-01-01 00:00:00")
                 (Response 200 [bq "{'response':'Hel'}"; bq "{'response':'lo'}"] None)
                 (ChatReturned (PyList [PyDict [(lit "content", PyStr (lit "Done."))]])) in
  let turns := [(lit "/help", w); (lit "   ", w); (lit " /oi  what time is it ", w);
                (lit "hello", w); (lit " exit ", w); (lit "delete all files", w)] in
  let st := main lower_ascii str_of_value str_of_exn
              (PyStr (lit "http://localhost:11434")) (PyStr (lit "llama3")) turns
              (ExternalError (lit "EOF when reading a line")) ∅ in
  printed st
  = [BANNER; COMMANDS; HELP; 10 :: lit "Assistant: Done."; 10 :: lit "Assistant: Hello"]
  /\ session (agent_of st) = Some SessionClosed
  /\ read_log INTERPRETER_LOG (files st)
     = (Return (PyList [log_entry (now w) (lit "what time is it") (PyStr (lit "Done."))]),
        files st)
  /\ read_log CLEAN_LOG (files st)
     = (Return (PyList [log_entry (now w) (lit "hello") (PyStr (lit "Hello"))]),
        files st).
Proof. intros w turns st. split_and!; reflexivity. Qed.
